(** * Sales ledger on a master/slave PostgreSQL pair

    A shallow embedding of [src/main.py]: the [DatabaseManager] query
    executor and health probe, and the [SalesService] operations
    ([create_transaction], [get_transactions], [get_transaction],
    [update_transaction], [delete_transaction], [get_sales_stats]).

    Conventions of the embedding.
    - Python exceptions are values of [exn]; a method is a function from
      the state of the two endpoints to a [result] and the next state.
    - [decimal.Decimal] is a coefficient and an exponent, with the
      rounding of the default context (28 significant digits,
      ROUND_HALF_EVEN, Emax = 999999) written out in [Decimal.dec_fix].
      Only finite numbers are modelled, and the sign of a zero is not
      tracked.
    - A dictionary read with [d[k]] for every key is a record; a key read
      with [d.get(k)] is an [option] field.  The item key [discount] is
      read both ways by the source, so it is an [option] and [d['discount']]
      raises [KeyError] when it is absent.
    - Each endpoint is a store of rows together with a schedule of faults:
      the schedule says, for each coming statement, whether the endpoint
      fails it (lost connection, constraint violation, a value out of the
      range of its column, ...).  The decimal columns are NUMERIC(12,2)
      and NUMERIC(10,2): the store keeps, and returns, a decimal rounded
      to two decimals, ties away from zero ([Decimal.numeric_scale2]). *)

From Stdlib Require Import ZArith QArith Qpower List String Bool Lia Permutation Sorted.
Import ListNotations.
Open Scope Z_scope.

(** ** Exceptions and results *)

Inductive exn : Type :=
| DatabaseError                              (* psycopg2.Error: a statement or a connection failed *)
| KeyError (key : string)                    (* d[k] on a missing key *)
| DecimalOverflow                            (* decimal.Overflow, trapped by the default context *)
| Exception (msg : string)                   (* Exception(msg) *)
| ExceptionFrom (msg : string) (cause : exn). (* Exception(f"msg: {e}") *)

Inductive result (A : Type) : Type :=
| Ok (a : A)
| Raise (e : exn).
Arguments Ok {A} a.
Arguments Raise {A} e.

(** ** decimal.Decimal under the default context *)

Module Decimal.

Record decimal : Type := mkdec { coef : Z; expo : Z }.

Definition prec : Z := 28.
Definition Emax : Z := 999999.
Definition Emin : Z := -999999.
Definition Etiny : Z := Emin - prec + 1.
Definition Etop : Z := Emax - prec + 1.

Fixpoint digits_aux (fuel : nat) (n : Z) : Z :=
  match fuel with
  | O => 0
  | S fuel' => if n =? 0 then 0 else 1 + digits_aux fuel' (n / 10)
  end.

(** Number of decimal digits of [|n|] ([len(self._int)] for a non-zero
    coefficient); a number has no more decimal digits than binary ones. *)
Definition ndigits (n : Z) : Z :=
  digits_aux (S (Z.to_nat (Z.log2 (Z.abs n)))) (Z.abs n).

(** [n / 10^shift] for [0 <= n], rounded half to even. *)
Definition round_half_even (n shift : Z) : Z :=
  let p := 10 ^ shift in
  let q := n / p in
  let r := n mod p in
  if 2 * r <? p then q
  else if p <? 2 * r then q + 1
  else if Z.even q then q else q + 1.

(** [Decimal._fix(context)]: round to the context's precision and check
    the exponent range. *)
Definition dec_fix (d : decimal) : result decimal :=
  let c := coef d in
  let e := expo d in
  if c =? 0 then Ok (mkdec 0 (Z.min (Z.max e Etiny) Emax))
  else
    let exp_min := ndigits c + e - prec in
    if Etop <? exp_min then Raise DecimalOverflow
    else
      let exp_min := Z.max exp_min Etiny in
      if e <? exp_min then
        let m := round_half_even (Z.abs c) (exp_min - e) in
        let m' := if 10 ^ prec <=? m then m / 10 else m in
        let exp_min' := if 10 ^ prec <=? m then exp_min + 1 else exp_min in
        if Etop <? exp_min' then Raise DecimalOverflow
        else Ok (mkdec (Z.sgn c * m') exp_min')
      else Ok d.

(** [Decimal(n)] for a Python [int]. *)
Definition of_int (n : Z) : decimal := mkdec n 0.

Definition zero : decimal := of_int 0.

Definition neg (a : decimal) : decimal := mkdec (- coef a) (expo a).

(** [a * b] *)
Definition mul (a b : decimal) : result decimal :=
  dec_fix (mkdec (coef a * coef b) (expo a + expo b)).

(** [a + b]: the exact sum at the smaller exponent, then [_fix]. *)
Definition add (a b : decimal) : result decimal :=
  let e := Z.min (expo a) (expo b) in
  dec_fix (mkdec (coef a * 10 ^ (expo a - e) + coef b * 10 ^ (expo b - e)) e).

(** [a - b] *)
Definition sub (a b : decimal) : result decimal := add a (neg b).

(** The rational number a decimal stands for. *)
Definition value (d : decimal) : Q :=
  (inject_Z (coef d) * Qpower (10 # 1) (expo d))%Q.

(** What a NUMERIC(p,2) column keeps of a decimal, and hands back: the
    number at scale 2, rounded when it has more decimals, ties away from
    zero.  A number too large for the column is refused by the endpoint. *)
Definition numeric_scale2 (d : decimal) : decimal :=
  if -2 <=? expo d then mkdec (coef d * 10 ^ (expo d + 2)) (-2)
  else
    let p := 10 ^ (- 2 - expo d) in
    let q := Z.abs (coef d) / p in
    let r := Z.abs (coef d) mod p in
    mkdec (Z.sgn (coef d) * (if 2 * r <? p then q else q + 1)) (-2).

End Decimal.

Import Decimal.

(** ** Rows of the two tables, and the dictionaries the service is called with *)

(** [SalesTransaction]: a row of [sales_transaction].  Timestamps are
    integers (a number of clock ticks). *)
Record SalesTransaction : Type := mkSalesTransaction {
  transaction_id : Z;
  transaction_time : Z;
  cashier_id : Z;
  store_id : Z;
  payment_method : string;
  total_amount : decimal;
  total_discount : decimal;
  customer_id : option Z;
  created_at : Z
}.

(** [SalesItem]: a row of [sales_item]. *)
Record SalesItem : Type := mkSalesItem {
  item_id : Z;
  item_transaction_id : Z;
  product_code : string;
  product_name : string;
  category : option string;
  quantity : Z;
  unit_price : decimal;
  discount : decimal;
  total_price : decimal
}.

(** [transaction_data] of [create_transaction]: the totals are computed
    by the service, [customer_id] is read with [.get]. *)
Record transaction_data : Type := mkTransactionData {
  td_transaction_time : Z;
  td_cashier_id : Z;
  td_store_id : Z;
  td_payment_method : string;
  td_customer_id : option Z
}.

(** One element of [items_data].  [d_unit_price] and [d_discount] hold the
    number that [Decimal(str(v))] makes of the value [v] under the key. *)
Record item_data : Type := mkItemData {
  d_product_code : string;
  d_product_name : string;
  d_category : option string;
  d_quantity : Z;
  d_unit_price : decimal;
  d_discount : option decimal
}.

(** [update_data] of [update_transaction]. *)
Record update_data : Type := mkUpdateData {
  ud_transaction_time : Z;
  ud_cashier_id : Z;
  ud_store_id : Z;
  ud_payment_method : string;
  ud_total_amount : decimal;
  ud_customer_id : option Z
}.

(** The row of the statistics query; [None] is SQL's NULL. *)
Record stats_row : Type := mkStatsRow {
  r_total_transactions : option Z;
  r_total_revenue : option Q;
  r_total_items_sold : option Z;
  r_average_transaction_value : option Q
}.

Inductive row : Type :=
| TransactionRow (t : SalesTransaction)
| StatsRow (s : stats_row)
| OneRow.

(** ** The statements the program sends, and what a store does with them *)

Inductive statement : Type :=
| InsertTransaction (transaction_time cashier_id store_id : Z) (payment_method : string)
    (total_amount total_discount : decimal) (customer_id : option Z)
| InsertItem (transaction_id : Z) (product_code product_name : string) (category : option string)
    (quantity : Z) (unit_price discount total_price : decimal)
| UpdateTransaction (transaction_time cashier_id store_id : Z) (payment_method : string)
    (total_amount : decimal) (customer_id : option Z) (transaction_id : Z)
| DeleteTransaction (transaction_id : Z)
| SelectOne
| SelectTransactionsPage (limit offset : Z)
| SelectTransaction (transaction_id : Z)
| SelectStats.

Record database : Type := mkDatabase {
  sales_transaction : list SalesTransaction;
  sales_item : list SalesItem;
  transaction_id_seq : Z;      (* last value of the SERIAL sequences *)
  item_id_seq : Z;
  current_timestamp : Z
}.

Definition has_id (id : Z) (t : SalesTransaction) : bool := transaction_id t =? id.
Definition of_transaction (id : Z) (i : SalesItem) : bool := item_transaction_id i =? id.

(** ORDER BY created_at DESC, by insertion; rows created at the same time
    stay in table order (one of the orders the engine may choose). *)
Fixpoint insert_desc (t : SalesTransaction) (l : list SalesTransaction) : list SalesTransaction :=
  match l with
  | [] => [t]
  | h :: r => if created_at h <=? created_at t then t :: h :: r else h :: insert_desc t r
  end.

Definition order_by_created_at_desc (l : list SalesTransaction) : list SalesTransaction :=
  fold_right insert_desc [] l.

(** UPDATE ... SET ... of one row: [total_discount], [created_at] and the
    identity are not in the SET list; [total_amount] is a NUMERIC(12,2)
    column. *)
Definition set_fields (transaction_time cashier_id store_id : Z) (payment_method : string)
    (total_amount : decimal) (customer_id : option Z) (t : SalesTransaction) : SalesTransaction :=
  {| transaction_id := transaction_id t;
     transaction_time := transaction_time;
     cashier_id := cashier_id;
     store_id := store_id;
     payment_method := payment_method;
     total_amount := numeric_scale2 total_amount;
     total_discount := total_discount t;
     customer_id := customer_id;
     created_at := created_at t |}.

(** FROM sales_transaction st LEFT JOIN sales_item si ON st.transaction_id = si.transaction_id *)
Definition left_join (ts : list SalesTransaction) (its : list SalesItem)
  : list (SalesTransaction * option SalesItem) :=
  flat_map (fun t =>
    match filter (of_transaction (transaction_id t)) its with
    | [] => [(t, None)]
    | matches => map (fun i => (t, Some i)) matches
    end) ts.

Definition Qsum (l : list Q) : Q := fold_right Qplus 0%Q l.
Definition Zsum (l : list Z) : Z := fold_right Z.add 0 l.

(** SUM and AVG are NULL over no rows; COUNT is not.  SUM of a NUMERIC
    column is exact.  AVG is the quotient of the sum by the number of rows,
    which the engine rounds at its result scale (16 significant digits or
    more); [sql_avg] is the quotient itself. *)
Definition sql_sum_Q (l : list Q) : option Q :=
  match l with [] => None | _ => Some (Qsum l) end.
Definition sql_sum_Z (l : list Z) : option Z :=
  match l with [] => None | _ => Some (Zsum l) end.
Definition sql_avg (l : list Q) : option Q :=
  match l with [] => None | _ => Some (Qsum l / inject_Z (Z.of_nat (List.length l)))%Q end.
Definition count_distinct (l : list Z) : Z := Z.of_nat (List.length (nodup Z.eq_dec l)).
Definition coalesce {A : Type} (x : option A) (d : A) : option A :=
  match x with Some v => Some v | None => Some d end.

Definition quantities (j : list (SalesTransaction * option SalesItem)) : list Z :=
  flat_map (fun p => match snd p with Some i => [quantity i] | None => [] end) j.

Definition select_stats (db : database) : stats_row :=
  let joined := left_join (sales_transaction db) (sales_item db) in
  let amounts := map (fun p => value (total_amount (fst p))) joined in
  {| r_total_transactions := Some (count_distinct (map (fun p => transaction_id (fst p)) joined));
     r_total_revenue := coalesce (sql_sum_Q amounts) 0%Q;
     r_total_items_sold := coalesce (sql_sum_Z (quantities joined)) 0;
     r_average_transaction_value := coalesce (sql_avg amounts) 0%Q |}.

(** What a statement returns ([None]: no result set) and the store it
    leaves.  The decimal columns of the two tables keep two decimals.  A
    negative LIMIT or OFFSET is an error of the statement. *)
Definition run_statement (q : statement) (db : database)
  : result (option (list row) * database) :=
  match q with
  | InsertTransaction time ci si pm ta tdisc cu =>
      let t := {| transaction_id := transaction_id_seq db + 1;
                  transaction_time := time; cashier_id := ci; store_id := si;
                  payment_method := pm; total_amount := numeric_scale2 ta;
                  total_discount := numeric_scale2 tdisc;
                  customer_id := cu; created_at := current_timestamp db |} in
      Ok (Some [TransactionRow t],
          {| sales_transaction := sales_transaction db ++ [t];
             sales_item := sales_item db;
             transaction_id_seq := transaction_id_seq db + 1;
             item_id_seq := item_id_seq db;
             current_timestamp := current_timestamp db |})
  | InsertItem tid pc pn cat qty up disc tp =>
      let i := {| item_id := item_id_seq db + 1; item_transaction_id := tid;
                  product_code := pc; product_name := pn; category := cat;
                  quantity := qty; unit_price := numeric_scale2 up;
                  discount := numeric_scale2 disc; total_price := numeric_scale2 tp |} in
      Ok (None,
          {| sales_transaction := sales_transaction db;
             sales_item := sales_item db ++ [i];
             transaction_id_seq := transaction_id_seq db;
             item_id_seq := item_id_seq db + 1;
             current_timestamp := current_timestamp db |})
  | UpdateTransaction time ci si pm ta cu id =>
      let upd := set_fields time ci si pm ta cu in
      Ok (Some (map (fun t => TransactionRow (upd t)) (filter (has_id id) (sales_transaction db))),
          {| sales_transaction :=
               map (fun t => if has_id id t then upd t else t) (sales_transaction db);
             sales_item := sales_item db;
             transaction_id_seq := transaction_id_seq db;
             item_id_seq := item_id_seq db;
             current_timestamp := current_timestamp db |})
  | DeleteTransaction id =>
      Ok (None,
          {| sales_transaction := filter (fun t => negb (has_id id t)) (sales_transaction db);
             (* ON DELETE CASCADE *)
             sales_item :=
               if existsb (has_id id) (sales_transaction db)
               then filter (fun i => negb (of_transaction id i)) (sales_item db)
               else sales_item db;
             transaction_id_seq := transaction_id_seq db;
             item_id_seq := item_id_seq db;
             current_timestamp := current_timestamp db |})
  | SelectOne => Ok (Some [OneRow], db)
  | SelectTransactionsPage limit offset =>
      if (limit <? 0) || (offset <? 0) then Raise DatabaseError
      else Ok (Some (map TransactionRow
                       (firstn (Z.to_nat limit)
                          (skipn (Z.to_nat offset)
                             (order_by_created_at_desc (sales_transaction db))))), db)
  | SelectTransaction id =>
      Ok (Some (map TransactionRow (filter (has_id id) (sales_transaction db))), db)
  | SelectStats => Ok (Some [StatsRow (select_stats db)], db)
  end.

(** ** The two endpoints and the monad of the methods *)

(** An endpoint: the committed store, and for each coming interaction
    whether the endpoint fails it. *)
Record endpoint : Type := mkEndpoint {
  committed : database;
  faults : list bool
}.

(** [DatabaseManager]: the pool on the write endpoint and the pool on the
    read endpoint. *)
Record DatabaseManager : Type := mkManager {
  master_pool : endpoint;
  slave_pool : endpoint
}.

Definition M (A : Type) : Type := DatabaseManager -> result A * DatabaseManager.

Definition ret {A : Type} (a : A) : M A := fun w => (Ok a, w).

Definition raise {A : Type} (e : exn) : M A := fun w => (Raise e, w).

Definition bind {A B : Type} (m : M A) (k : A -> M B) : M B :=
  fun w => match m w with
           | (Ok a, w') => k a w'
           | (Raise e, w') => (Raise e, w')
           end.

(** [try: m except Exception as e: handler e] *)
Definition try_except {A : Type} (m : M A) (handler : exn -> M A) : M A :=
  fun w => match m w with
           | (Ok a, w') => (Ok a, w')
           | (Raise e, w') => handler e w'
           end.

(** A computation that touches no endpoint. *)
Definition lift {A : Type} (r : result A) : M A := fun w => (r, w).

Definition rbind {A B : Type} (r : result A) (k : A -> result B) : result B :=
  match r with
  | Ok a => k a
  | Raise e => Raise e
  end.

Declare Scope py_scope.
Delimit Scope py_scope with py.
Notation "x <- c1 ;; c2" := (bind c1 (fun x => c2))
  (at level 100, c1 at next level, right associativity) : py_scope.
Notation "'let?' x ':=' c1 'in' c2" := (rbind c1 (fun x => c2))
  (at level 100, x pattern, c1 at next level, right associativity) : py_scope.
Open Scope py_scope.

(** ** DatabaseManager *)

(** [cursor.execute(query, params)] on a connection checked out of the
    pool: the result set and the connection's uncommitted store, or the
    driver's error when the endpoint fails the interaction. *)
Definition cursor_execute (query : statement) (ep : endpoint)
  : result (option (list row) * database) * endpoint :=
  let ep' := {| committed := committed ep; faults := tl (faults ep) |} in
  match faults ep with
  | true :: _ => (Raise DatabaseError, ep')
  | _ => (run_statement query (committed ep), ep')
  end.

(** [execute_write_query]: one statement on a master connection with
    autocommit off; [conn.commit()] after it, [connection.rollback()]
    and re-raise when it fails. *)
Definition execute_write_query (query : statement) : M (option (list row)) :=
  fun w =>
    match cursor_execute query (master_pool w) with
    | (Ok (rows, pending), ep) =>
        (Ok rows, {| master_pool := {| committed := pending; faults := faults ep |};
                     slave_pool := slave_pool w |})
    | (Raise e, ep) =>
        (Raise e, {| master_pool := ep; slave_pool := slave_pool w |})
    end.

(** [cursor.fetchall()]: an error of the driver when the statement has no
    result set. *)
Definition fetchall (rows : option (list row)) : result (list row) :=
  match rows with
  | Some rs => Ok rs
  | None => Raise DatabaseError
  end.

(** [execute_read_query]: one statement on a slave connection with
    autocommit on, all rows. *)
Definition execute_read_query (query : statement) : M (list row) :=
  fun w =>
    match cursor_execute query (slave_pool w) with
    | (Ok (rows, pending), ep) =>
        (fetchall rows, {| master_pool := master_pool w;
                           slave_pool := {| committed := pending; faults := faults ep |} |})
    | (Raise e, ep) =>
        (Raise e, {| master_pool := master_pool w; slave_pool := ep |})
    end.

(** [execute_read_query_one]: the first row, or [None]. *)
Definition execute_read_query_one (query : statement) : M (option row) :=
  rows <- execute_read_query query ;;
  ret (hd_error rows).

(** [check_connection] answers with [{"master": b1, "slave": b2}]. *)
Record connection_status : Type := mkStatus {
  master : bool;
  slave : bool
}.

(** [with self.get_master_connection() as conn: cursor.execute("SELECT 1")]:
    nothing is committed. *)
Definition probe_master : M unit :=
  fun w =>
    match cursor_execute SelectOne (master_pool w) with
    | (Ok _, ep) => (Ok tt, {| master_pool := ep; slave_pool := slave_pool w |})
    | (Raise e, ep) => (Raise e, {| master_pool := ep; slave_pool := slave_pool w |})
    end.

Definition probe_slave : M unit :=
  fun w =>
    match cursor_execute SelectOne (slave_pool w) with
    | (Ok _, ep) => (Ok tt, {| master_pool := master_pool w; slave_pool := ep |})
    | (Raise e, ep) => (Raise e, {| master_pool := master_pool w; slave_pool := ep |})
    end.

Definition check_connection : M connection_status :=
  let status := {| master := false; slave := false |} in
  status <- try_except
              (_ <- probe_master ;; ret {| master := true; slave := slave status |})
              (fun _ => ret status) ;;
  status <- try_except
              (_ <- probe_slave ;; ret {| master := master status; slave := true |})
              (fun _ => ret status) ;;
  ret status.

(** ** SalesService *)

(** The [SalesTransaction] model built from a row's columns. *)
Definition SalesTransaction_of_row (r : row) : result SalesTransaction :=
  match r with
  | TransactionRow t => Ok t
  | _ => Raise (Exception "validation error")
  end.

(** [item_data.get('discount', 0)] through [Decimal(str(.))] *)
Definition get_discount (item : item_data) : decimal :=
  match d_discount item with
  | Some d => d
  | None => of_int 0
  end.

(** [item_data['discount']] *)
Definition getitem_discount (item : item_data) : result decimal :=
  match d_discount item with
  | Some d => Ok d
  | None => Raise (KeyError "discount")
  end.

(** [(unit_price * quantity) - discount], as both loops compute it. *)
Definition item_total (item : item_data) : result decimal :=
  let unit_price := d_unit_price item in
  let quantity := d_quantity item in
  let discount := get_discount item in
  let? p := mul unit_price (of_int quantity) in
  sub p discount.

(** The first loop of [create_transaction], on its two accumulators. *)
Fixpoint calculate_totals (items_data : list item_data) (total_amount total_discount : decimal)
  : result (decimal * decimal) :=
  match items_data with
  | [] => Ok (total_amount, total_discount)
  | item :: rest =>
      let? line := item_total item in
      let? total_amount := add total_amount line in
      let? total_discount := add total_discount (get_discount item) in
      calculate_totals rest total_amount total_discount
  end.

(** The second loop of [create_transaction]: one write per item. *)
Fixpoint create_items (transaction_id : Z) (items_data : list item_data) : M unit :=
  match items_data with
  | [] => ret tt
  | item :: rest =>
      total_price <- lift (item_total item) ;;
      discount <- lift (getitem_discount item) ;;
      _ <- execute_write_query
             (InsertItem transaction_id (d_product_code item) (d_product_name item)
                (d_category item) (d_quantity item) (d_unit_price item) discount total_price) ;;
      create_items transaction_id rest
  end.

Definition create_transaction (data : transaction_data) (items_data : list item_data)
  : M SalesTransaction :=
  try_except
    (totals <- lift (calculate_totals items_data zero zero) ;;
     result <- execute_write_query
                 (InsertTransaction (td_transaction_time data) (td_cashier_id data)
                    (td_store_id data) (td_payment_method data)
                    (fst totals) (snd totals) (td_customer_id data)) ;;
     match result with
     | Some (r :: _) =>
         transaction <- lift (SalesTransaction_of_row r) ;;
         _ <- create_items (transaction_id transaction) items_data ;;
         ret transaction
     | _ => raise (Exception "Failed to create transaction")
     end)
    (fun e => raise (ExceptionFrom "Failed to create transaction" e)).

(** The list comprehension over [results]. *)
Fixpoint transactions_of_rows (rows : list row) : result (list SalesTransaction) :=
  match rows with
  | [] => Ok []
  | r :: rest =>
      let? t := SalesTransaction_of_row r in
      let? ts := transactions_of_rows rest in
      Ok (t :: ts)
  end.

Definition get_transactions (page page_size : Z) : M (list SalesTransaction) :=
  let offset := (page - 1) * page_size in
  results <- execute_read_query (SelectTransactionsPage page_size offset) ;;
  lift (transactions_of_rows results).

Definition get_transaction (transaction_id : Z) : M (option SalesTransaction) :=
  result <- execute_read_query_one (SelectTransaction transaction_id) ;;
  match result with
  | Some r => t <- lift (SalesTransaction_of_row r) ;; ret (Some t)
  | None => ret None
  end.

Definition update_transaction (transaction_id : Z) (data : update_data)
  : M (option SalesTransaction) :=
  result <- execute_write_query
              (UpdateTransaction (ud_transaction_time data) (ud_cashier_id data)
                 (ud_store_id data) (ud_payment_method data) (ud_total_amount data)
                 (ud_customer_id data) transaction_id) ;;
  match result with
  | Some (r :: _) => t <- lift (SalesTransaction_of_row r) ;; ret (Some t)
  | _ => ret None
  end.

Definition delete_transaction (transaction_id : Z) : M bool :=
  try_except
    (_ <- execute_write_query (DeleteTransaction transaction_id) ;; ret true)
    (fun _ => ret false).

(** The dictionary of [get_sales_stats]; the two amounts are the numbers
    of the row that the method hands to [float()], before the conversion. *)
Record sales_stats : Type := mkStats {
  total_transactions : Z;
  total_revenue : Q;
  total_items_sold : Z;
  average_transaction_value : Q
}.

(** [x or 0] *)
Definition or_zero_Z (x : option Z) : Z := match x with Some v => v | None => 0 end.
Definition or_zero_Q (x : option Q) : Q := match x with Some v => v | None => 0%Q end.

Definition get_sales_stats : M sales_stats :=
  result <- execute_read_query_one SelectStats ;;
  match result with
  | Some (StatsRow r) =>
      ret {| total_transactions := or_zero_Z (r_total_transactions r);
             total_revenue := or_zero_Q (r_total_revenue r);
             total_items_sold := or_zero_Z (r_total_items_sold r);
             average_transaction_value := or_zero_Q (r_average_transaction_value r) |}
  | Some _ => raise (KeyError "total_transactions")
  | None =>
      ret {| total_transactions := 0; total_revenue := 0%Q;
             total_items_sold := 0; average_transaction_value := 0%Q |}
  end.

(** ** Notions used to state the properties *)

(** The endpoint fails the next interaction. *)
Definition fails_next (ep : endpoint) : bool :=
  match faults ep with
  | true :: _ => true
  | _ => false
  end.

(** A schedule without a fault among its first [n] interactions. *)
Definition no_faults (n : nat) (schedule : list bool) : Prop :=
  Forall (fun b => b = false) (firstn n schedule).

(** The row that the second loop of [create_transaction] writes for an
    item, under the identity [tid] of the sale. *)
Definition persisted_as (tid : Z) (item : item_data) (r : SalesItem) : Prop :=
  item_transaction_id r = tid /\
  product_code r = d_product_code item /\
  product_name r = d_product_name item /\
  category r = d_category item /\
  quantity r = d_quantity item /\
  unit_price r = numeric_scale2 (d_unit_price item) /\
  option_map numeric_scale2 (d_discount item) = Some (discount r) /\
  (let? tp := item_total item in Ok (numeric_scale2 tp)) = Ok (total_price r).


(** [a] may come before [b] in a listing by creation time, newest first. *)
Definition newer_first (a b : SalesTransaction) : Prop := created_at b <= created_at a.

(** The row that INSERT INTO sales_transaction ... RETURNING makes of the
    parameters of [create_transaction], and the store with that row. *)
Definition inserted_sale (data : transaction_data) (ta tdisc : decimal) (db : database)
  : SalesTransaction :=
  {| transaction_id := transaction_id_seq db + 1;
     transaction_time := td_transaction_time data;
     cashier_id := td_cashier_id data;
     store_id := td_store_id data;
     payment_method := td_payment_method data;
     total_amount := numeric_scale2 ta;
     total_discount := numeric_scale2 tdisc;
     customer_id := td_customer_id data;
     created_at := current_timestamp db |}.

Definition store_with_sale (db : database) (t : SalesTransaction) : database :=
  {| sales_transaction := sales_transaction db ++ [t];
     sales_item := sales_item db;
     transaction_id_seq := transaction_id_seq db + 1;
     item_id_seq := item_id_seq db;
     current_timestamp := current_timestamp db |}.

(** *** Concrete inputs *)

Definition empty_store : database :=
  {| sales_transaction := []; sales_item := [];
     transaction_id_seq := 0; item_id_seq := 0; current_timestamp := 1000 |}.

(** Both endpoints empty; the write endpoint follows [schedule]. *)
Definition fresh_manager (schedule : list bool) : DatabaseManager :=
  {| master_pool := {| committed := empty_store; faults := schedule |};
     slave_pool := {| committed := empty_store; faults := [] |} |}.

Definition cash_sale : transaction_data :=
  {| td_transaction_time := 990; td_cashier_id := 1; td_store_id := 1;
     td_payment_method := "Cash"; td_customer_id := None |}.

(** unit_price=10.00, qty=2, discount=0.00 *)
Definition coffee : item_data :=
  {| d_product_code := "P001"; d_product_name := "Coffee"; d_category := Some "Beverages"%string;
     d_quantity := 2; d_unit_price := mkdec 1000 (-2); d_discount := Some (mkdec 0 (-2)) |}.

(** unit_price=5.50, qty=1, discount=0.50 *)
Definition muffin : item_data :=
  {| d_product_code := "P005"; d_product_name := "Muffin"; d_category := Some "Food"%string;
     d_quantity := 1; d_unit_price := mkdec 550 (-2); d_discount := Some (mkdec 50 (-2)) |}.

(** unit_price=3.00, qty=1, no [discount] key *)
Definition tea : item_data :=
  {| d_product_code := "P006"; d_product_name := "Tea"; d_category := None;
     d_quantity := 1; d_unit_price := mkdec 300 (-2); d_discount := None |}.

(** Rows on the read endpoint: sale 1 of 30.00 with two items, sale 2 of
    10.00 with one item. *)
Definition sale_row (id : Z) (total : decimal) (created : Z) : SalesTransaction :=
  {| transaction_id := id; transaction_time := created; cashier_id := 1; store_id := 1;
     payment_method := "Cash"; total_amount := total; total_discount := mkdec 0 (-2);
     customer_id := None; created_at := created |}.

Definition item_row (id tid : Z) (price : decimal) : SalesItem :=
  {| item_id := id; item_transaction_id := tid; product_code := "P001";
     product_name := "Coffee"; category := None; quantity := 1;
     unit_price := price; discount := mkdec 0 (-2); total_price := price |}.

Definition two_sales_store : database :=
  {| sales_transaction := [sale_row 1 (mkdec 3000 (-2)) 10; sale_row 2 (mkdec 1000 (-2)) 20];
     sales_item := [item_row 1 1 (mkdec 1500 (-2)); item_row 2 1 (mkdec 1500 (-2));
                    item_row 3 2 (mkdec 1000 (-2))];
     transaction_id_seq := 2; item_id_seq := 3; current_timestamp := 30 |}.

Definition reporting_manager : DatabaseManager :=
  {| master_pool := {| committed := two_sales_store; faults := [] |};
     slave_pool := {| committed := two_sales_store; faults := [] |} |}.

(** *** Exact totals

    Follows the specification's words: [sum(unit_price_i * quantity_i -
    discount_i)] and [sum(discount_i)] over the items, as rational
    numbers. *)
Definition exact_line_total (item : item_data) : Q :=
  (value (d_unit_price item) * inject_Z (d_quantity item) - value (get_discount item))%Q.

Definition exact_total_amount (L : list item_data) : Q :=
  Qsum (map exact_line_total L).

Definition exact_total_discount (L : list item_data) : Q :=
  Qsum (map (fun item => value (get_discount item)) L).

(** The decimal [d] counted in units of [10^-s], for [- s <= expo d]. *)
Definition units (s : Z) (d : decimal) : Z := coef d * 10 ^ (expo d + s).

(** The amounts of the item have at most [s] decimals. *)
Definition within_scale (s : Z) (item : item_data) : Prop :=
  (- s <= expo (d_unit_price item) <= 0) /\ (- s <= expo (get_discount item) <= 0).

(** Absolute line amounts and discounts of the items, added up in units of
    [10^-s]: a bound on every number the first loop computes. *)
Definition mass (s : Z) (L : list item_data) : Z :=
  Zsum (map (fun item =>
               Z.abs (units s (d_unit_price item)) * Z.abs (d_quantity item)
               + Z.abs (units s (get_discount item))) L).


(** The line total of an item in units of [10^-s]. *)
Definition line_units (s : Z) (item : item_data) : Z :=
  units s (d_unit_price item) * d_quantity item - units s (get_discount item).

(** Fifteen sales on the read endpoint, sale [i] created at time [10 * i]. *)
Definition fifteen_sales : list SalesTransaction :=
  map (fun i => sale_row i (mkdec 1000 (-2)) (10 * i))
      [1; 2; 3; 4; 5; 6; 7; 8; 9; 10; 11; 12; 13; 14; 15].

Definition archive_manager : DatabaseManager :=
  {| master_pool := {| committed := empty_store; faults := [] |};
     slave_pool :=
       {| committed :=
            {| sales_transaction := fifteen_sales; sales_item := [];
               transaction_id_seq := 15; item_id_seq := 0; current_timestamp := 200 |};
          faults := [] |} |}.

Definition card_update : update_data :=
  {| ud_transaction_time := 12; ud_cashier_id := 4; ud_store_id := 2;
     ud_payment_method := "Credit Card"; ud_total_amount := mkdec 9999 (-2);
     ud_customer_id := Some 77 |}.

(** ** Reporting queries of [SalesService]

    [get_items_by_transaction] and [get_top_products] go through
    [execute_read_query] with statements of their own; their rows are items
    and per-product sums. *)

Record product_row : Type := mkProductRow {
  pr_product_name : string;
  pr_total_quantity : Z;       (* SUM(quantity) *)
  pr_total_revenue : Q         (* SUM(total_price) *)
}.

Inductive report_query : Type :=
| SelectItems (transaction_id : Z)
| SelectTopProducts (limit : Z).

Inductive report_row : Type :=
| ItemRow (i : SalesItem)
| ProductRow (p : product_row).

(** ORDER BY an integer key, ascending, by insertion; rows with the same
    key stay in their order. *)
Fixpoint insert_asc {A : Type} (key : A -> Z) (x : A) (l : list A) : list A :=
  match l with
  | [] => [x]
  | h :: r => if key h <? key x then h :: insert_asc key x r else x :: h :: r
  end.

Definition order_by {A : Type} (key : A -> Z) (l : list A) : list A :=
  fold_right (insert_asc key) [] l.

Definition named (name : string) (i : SalesItem) : bool := String.eqb (product_name i) name.

(** GROUP BY product_name: one group per name that occurs. *)
Definition product_names (items : list SalesItem) : list string :=
  nodup string_dec (map product_name items).

Definition product_group (items : list SalesItem) (name : string) : product_row :=
  let rows := filter (named name) items in
  {| pr_product_name := name;
     pr_total_quantity := Zsum (map quantity rows);
     pr_total_revenue := Qsum (map (fun i => value (total_price i)) rows) |}.

Definition run_report (q : report_query) (db : database) : result (list report_row) :=
  match q with
  | SelectItems id =>
      Ok (map ItemRow (order_by item_id (filter (of_transaction id) (sales_item db))))
  | SelectTopProducts limit =>
      if limit <? 0 then Raise DatabaseError
      else Ok (map ProductRow
                 (firstn (Z.to_nat limit)
                    (order_by (fun p => - pr_total_quantity p)
                       (map (product_group (sales_item db)) (product_names (sales_item db))))))
  end.

(** [execute_read_query] on a reporting statement: a slave connection with
    autocommit on, all rows. *)
Definition execute_report_query (query : report_query) : M (list report_row) :=
  fun w =>
    let ep := {| committed := committed (slave_pool w); faults := tl (faults (slave_pool w)) |} in
    match faults (slave_pool w) with
    | true :: _ => (Raise DatabaseError, {| master_pool := master_pool w; slave_pool := ep |})
    | _ => (run_report query (committed (slave_pool w)),
            {| master_pool := master_pool w; slave_pool := ep |})
    end.

(** The [SalesItem] model built from a row's columns. *)
Definition SalesItem_of_row (r : report_row) : result SalesItem :=
  match r with
  | ItemRow i => Ok i
  | ProductRow _ => Raise (Exception "validation error")
  end.

Fixpoint items_of_rows (rows : list report_row) : result (list SalesItem) :=
  match rows with
  | [] => Ok []
  | r :: rest =>
      let? i := SalesItem_of_row r in
      let? items := items_of_rows rest in
      Ok (i :: items)
  end.

Definition get_items_by_transaction (transaction_id : Z) : M (list SalesItem) :=
  results <- execute_report_query (SelectItems transaction_id) ;;
  lift (items_of_rows results).

Definition get_top_products (limit : Z) : M (list report_row) :=
  execute_report_query (SelectTopProducts limit).

(** ** Invariants of a store *)

(** Identities come from the sequence: no stored sale is ahead of it and no
    two stored sales share one. *)
Definition keys_in_sequence (db : database) : Prop :=
  Forall (fun t => transaction_id t <= transaction_id_seq db) (sales_transaction db) /\
  NoDup (map transaction_id (sales_transaction db)).

(** Every stored item belongs to a stored sale. *)
Definition references_hold (db : database) : Prop :=
  Forall (fun i => existsb (has_id (item_transaction_id i)) (sales_transaction db) = true)
         (sales_item db).

(** The number of stored items of a sale. *)
Definition item_count (db : database) (t : SalesTransaction) : nat :=
  List.length (filter (of_transaction (transaction_id t)) (sales_item db)).

(** A price past the exponent range of the context: 1E+999999 *)
Definition huge_price : item_data :=
  {| d_product_code := "P001"; d_product_name := "Coffee"; d_category := None;
     d_quantity := 10; d_unit_price := mkdec 1 999999; d_discount := Some (mkdec 0 0) |}.

(** The row that UPDATE makes of a stored sale and [update_data]. *)
Definition overwritten (data : update_data) (t : SalesTransaction) : SalesTransaction :=
  set_fields (ud_transaction_time data) (ud_cashier_id data) (ud_store_id data)
    (ud_payment_method data) (ud_total_amount data) (ud_customer_id data) t.

(** The number of rows that the LEFT JOIN of [get_sales_stats] has for a
    sale: one per stored item of the sale, and one when it has none. *)
Definition join_rows (db : database) (t : SalesTransaction) : nat :=
  Nat.max 1 (item_count db t).

(** The quantities of the stored items of a sale. *)
Definition sale_quantities (db : database) (t : SalesTransaction) : list Z :=
  map quantity (filter (of_transaction (transaction_id t)) (sales_item db)).

(** *** Amounts in cents

    The price and the discount of the item have at most the two decimals
    of their columns, and its line total needs no more than the 28 digits
    of the [Decimal] context. *)
Definition priced_in_cents (item : item_data) : Prop :=
  within_scale 2 item /\
  Z.abs (units 2 (d_unit_price item)) * Z.abs (d_quantity item)
    + Z.abs (units 2 (get_discount item)) < 10 ^ 28.

(** [total_price = unit_price * quantity - discount] on the columns of a
    stored row. *)
Definition line_total_holds (r : SalesItem) : Prop :=
  (value (total_price r)
   == value (unit_price r) * inject_Z (quantity r) - value (discount r))%Q.

(** unit_price=0.125, discount=0.00, in the given quantity *)
Definition eighths (quantity : Z) : item_data :=
  {| d_product_code := "P010"; d_product_name := "Cookie"; d_category := None;
     d_quantity := quantity; d_unit_price := mkdec 125 (-3);
     d_discount := Some (mkdec 0 (-2)) |}.

(** * Properties *)

(** ** The query executor *)

Lemma cursor_execute_faults : forall q ep r ep',
  cursor_execute q ep = (r, ep') ->
  committed ep' = committed ep /\ faults ep' = tl (faults ep).
Proof.
  intros q ep r ep' H. unfold cursor_execute in H.
  destruct (faults ep) as [|[|] fs]; inversion H; subst; simpl; auto.
Qed.

Lemma cursor_execute_ok : forall q ep,
  fails_next ep = false ->
  cursor_execute q ep =
    (run_statement q (committed ep), {| committed := committed ep; faults := tl (faults ep) |}).
Proof.
  intros q ep H. unfold cursor_execute, fails_next in *.
  destruct (faults ep) as [|[|] fs]; try discriminate; reflexivity.
Qed.

Lemma cursor_execute_fault : forall q ep,
  fails_next ep = true ->
  cursor_execute q ep =
    (Raise DatabaseError, {| committed := committed ep; faults := tl (faults ep) |}).
Proof.
  intros q ep H. unfold cursor_execute, fails_next in *.
  destruct (faults ep) as [|[|] fs]; try discriminate; reflexivity.
Qed.

Lemma execute_write_query_ok : forall q w rows db',
  fails_next (master_pool w) = false ->
  run_statement q (committed (master_pool w)) = Ok (rows, db') ->
  execute_write_query q w =
    (Ok rows, {| master_pool := {| committed := db'; faults := tl (faults (master_pool w)) |};
                 slave_pool := slave_pool w |}).
Proof.
  intros q w rows db' Hf Hr. unfold execute_write_query.
  rewrite (cursor_execute_ok _ _ Hf), Hr. reflexivity.
Qed.

(** A failed write leaves the committed store as it was: the statement is
    rolled back. *)
Lemma execute_write_query_fault : forall q w,
  fails_next (master_pool w) = true ->
  execute_write_query q w =
    (Raise DatabaseError,
     {| master_pool := {| committed := committed (master_pool w);
                          faults := tl (faults (master_pool w)) |};
        slave_pool := slave_pool w |}).
Proof.
  intros q w Hf. unfold execute_write_query.
  rewrite (cursor_execute_fault _ _ Hf). reflexivity.
Qed.

(** What a successful write says about the two states. *)
Lemma execute_write_query_inv : forall q w rows w',
  execute_write_query q w = (Ok rows, w') ->
  run_statement q (committed (master_pool w)) = Ok (rows, committed (master_pool w')) /\
  faults (master_pool w') = tl (faults (master_pool w)) /\
  slave_pool w' = slave_pool w /\
  fails_next (master_pool w) = false.
Proof.
  intros q w rows w' H. unfold execute_write_query in H.
  destruct (fails_next (master_pool w)) eqn:Hf.
  - rewrite (cursor_execute_fault _ _ Hf) in H. discriminate.
  - rewrite (cursor_execute_ok _ _ Hf) in H.
    destruct (run_statement q (committed (master_pool w))) as [[rs pending]|e]; [|discriminate].
    inversion H; subst; simpl. auto.
Qed.

Lemma execute_read_query_ok : forall q w rows db',
  fails_next (slave_pool w) = false ->
  run_statement q (committed (slave_pool w)) = Ok (rows, db') ->
  execute_read_query q w =
    (fetchall rows,
     {| master_pool := master_pool w;
        slave_pool := {| committed := db'; faults := tl (faults (slave_pool w)) |} |}).
Proof.
  intros q w rows db' Hf Hr. unfold execute_read_query.
  rewrite (cursor_execute_ok _ _ Hf), Hr. reflexivity.
Qed.

(** ** Health probe *)

(** C9. [check_connection] never raises and answers one boolean per
    endpoint: [master] is true exactly when the write endpoint answers its
    own probe, [slave] exactly when the read endpoint answers its own, each
    whatever the other endpoint does.  Each probe consumes one interaction
    of its own endpoint and changes no store. *)
Theorem check_connection_isolated : forall w,
  check_connection w =
    (Ok {| master := negb (fails_next (master_pool w));
           slave := negb (fails_next (slave_pool w)) |},
     {| master_pool := {| committed := committed (master_pool w);
                          faults := tl (faults (master_pool w)) |};
        slave_pool := {| committed := committed (slave_pool w);
                         faults := tl (faults (slave_pool w)) |} |}).
Proof.
  intros [m s]. unfold check_connection, try_except, bind, ret, probe_master, probe_slave.
  simpl.
  destruct (fails_next m) eqn:Hm; destruct (fails_next s) eqn:Hs;
    repeat first [ rewrite (cursor_execute_fault _ _ Hm) | rewrite (cursor_execute_ok _ _ Hm)
                 | rewrite (cursor_execute_fault _ _ Hs) | rewrite (cursor_execute_ok _ _ Hs)
                 | progress simpl ];
    reflexivity.
Qed.

(** ** Deleting a sale *)

Lemma filter_none : forall (A : Type) (p : A -> bool) (l : list A),
  Forall (fun x => p x = true) l -> filter p l = l.
Proof.
  intros A p l H. induction H as [|x l Hx _ IH]; simpl.
  - reflexivity.
  - rewrite Hx, IH. reflexivity.
Qed.

Lemma existsb_absent : forall (A : Type) (p : A -> bool) (l : list A),
  Forall (fun x => p x = false) l -> existsb p l = false.
Proof.
  intros A p l H. induction H as [|x l Hx _ IH]; simpl.
  - reflexivity.
  - rewrite Hx, IH. reflexivity.
Qed.

(** C6. [delete_transaction] never raises: for every identity and every
    state of the endpoints it returns a boolean, [True] when the endpoint
    executes the DELETE (the sale is then gone from the store) and [False]
    when the endpoint fails it (the store is then as it was). *)
Theorem delete_transaction_never_raises : forall id w,
  exists w',
    delete_transaction id w = (Ok (negb (fails_next (master_pool w))), w') /\
    sales_transaction (committed (master_pool w')) =
      (if fails_next (master_pool w)
       then sales_transaction (committed (master_pool w))
       else filter (fun t => negb (has_id id t)) (sales_transaction (committed (master_pool w)))) /\
    slave_pool w' = slave_pool w.
Proof.
  intros id w. unfold delete_transaction, try_except, bind, ret.
  destruct (fails_next (master_pool w)) eqn:Hf.
  - rewrite (execute_write_query_fault _ _ Hf). simpl. eauto.
  - erewrite (execute_write_query_ok _ _ _ _ Hf) by reflexivity. simpl. eauto.
Qed.

(** C10. When the endpoint executes the statement, [delete_transaction]
    returns [True] for an identity that no stored sale has, and leaves the
    store as it was; it returns [True] for every other identity as well, so
    the boolean does not tell whether a sale was deleted. *)
Theorem delete_transaction_absent_is_true : forall id w,
  fails_next (master_pool w) = false ->
  Forall (fun t => transaction_id t <> id) (sales_transaction (committed (master_pool w))) ->
  (exists w', delete_transaction id w = (Ok true, w') /\
              committed (master_pool w') = committed (master_pool w)) /\
  (forall id', fst (delete_transaction id' w) = Ok true).
Proof.
  intros id w Hf Habs. split.
  - unfold delete_transaction, try_except, bind, ret.
    erewrite (execute_write_query_ok _ _ _ _ Hf) by reflexivity.
    eexists. split; [reflexivity|]. simpl.
    assert (Hno : Forall (fun t => has_id id t = false)
                    (sales_transaction (committed (master_pool w)))).
    { eapply Forall_impl; [|exact Habs]. intros t Ht. unfold has_id. now apply Z.eqb_neq. }
    rewrite (existsb_absent _ _ _ Hno), filter_none.
    + destruct (committed (master_pool w)); reflexivity.
    + eapply Forall_impl; [|exact Hno]. intros t Ht. simpl in Ht. now rewrite Ht.
  - intros id'. unfold delete_transaction, try_except, bind, ret.
    erewrite (execute_write_query_ok _ _ _ _ Hf) by reflexivity. reflexivity.
Qed.

(** ** Update and lookup by identity *)

Lemma hd_error_filter_find : forall (A : Type) (p : A -> bool) (l : list A),
  hd_error (filter p l) = find p l.
Proof.
  intros A p l. induction l as [|x l IH]; simpl.
  - reflexivity.
  - destruct (p x); simpl; auto.
Qed.

(** C7. When the write endpoint executes the UPDATE, [update_transaction]
    returns the sale of that identity with the six fields of [update_data]
    written over it (the total is the caller's, at the two decimals of its
    column, not a sum over the items; identity, [total_discount] and
    [created_at] stay), and the stored rows
    of that identity are overwritten in the same way; when no stored sale
    has the identity it returns [None] and raises nothing.  When the read
    endpoint executes the SELECT, [get_transaction] returns the stored sale
    of that identity, or [None] when there is none. *)
Theorem update_and_lookup_by_identity : forall id data w1 w2,
  fails_next (master_pool w1) = false ->
  fails_next (slave_pool w2) = false ->
  let overwrite := fun t =>
    {| transaction_id := transaction_id t;
       transaction_time := ud_transaction_time data;
       cashier_id := ud_cashier_id data;
       store_id := ud_store_id data;
       payment_method := ud_payment_method data;
       total_amount := numeric_scale2 (ud_total_amount data);
       total_discount := total_discount t;
       customer_id := ud_customer_id data;
       created_at := created_at t |} in
  (exists w1',
     update_transaction id data w1 =
       (Ok (option_map overwrite
              (find (has_id id) (sales_transaction (committed (master_pool w1))))), w1') /\
     sales_transaction (committed (master_pool w1')) =
       map (fun t => if has_id id t then overwrite t else t)
           (sales_transaction (committed (master_pool w1))) /\
     sales_item (committed (master_pool w1')) = sales_item (committed (master_pool w1))) /\
  (exists w2',
     get_transaction id w2 =
       (Ok (find (has_id id) (sales_transaction (committed (slave_pool w2)))), w2') /\
     committed (slave_pool w2') = committed (slave_pool w2)).
Proof.
  intros id data w1 w2 Hm Hs overwrite. split.
  - unfold update_transaction, bind.
    erewrite (execute_write_query_ok _ _ _ _ Hm) by reflexivity.
    rewrite <- hd_error_filter_find.
    destruct (filter (has_id id) (sales_transaction (committed (master_pool w1))))
      as [|t rest]; simpl; eexists; repeat split; reflexivity.
  - unfold get_transaction, execute_read_query_one, bind.
    erewrite (execute_read_query_ok _ _ _ _ Hs) by reflexivity.
    rewrite <- hd_error_filter_find. simpl.
    destruct (filter (has_id id) (sales_transaction (committed (slave_pool w2))))
      as [|t rest]; simpl; eexists; split; reflexivity.
Qed.

(** ** Paginated listing *)

Lemma insert_desc_perm : forall t l, Permutation (t :: l) (insert_desc t l).
Proof.
  intros t l. induction l as [|h r IH]; simpl.
  - apply Permutation_refl.
  - destruct (created_at h <=? created_at t).
    + apply Permutation_refl.
    + eapply Permutation_trans; [apply perm_swap|]. now apply perm_skip.
Qed.

Lemma order_by_perm : forall l, Permutation l (order_by_created_at_desc l).
Proof.
  induction l as [|t l IH]; simpl.
  - apply perm_nil.
  - eapply Permutation_trans; [|apply insert_desc_perm]. now apply perm_skip.
Qed.

Lemma insert_desc_sorted : forall t l,
  StronglySorted newer_first l -> StronglySorted newer_first (insert_desc t l).
Proof.
  intros t l H. induction H as [|h r Hr IH Hh]; simpl.
  - constructor; constructor.
  - destruct (created_at h <=? created_at t) eqn:E.
    + apply Z.leb_le in E. constructor.
      * constructor; assumption.
      * constructor; [exact E|].
        eapply Forall_impl; [|exact Hh]. unfold newer_first. intros; lia.
    + apply Z.leb_gt in E. constructor; [exact IH|].
      eapply Permutation_Forall; [apply insert_desc_perm|].
      constructor; [unfold newer_first; lia | exact Hh].
Qed.

Lemma order_by_sorted : forall l, StronglySorted newer_first (order_by_created_at_desc l).
Proof.
  induction l as [|t l IH]; simpl.
  - constructor.
  - now apply insert_desc_sorted.
Qed.

Lemma transactions_of_rows_map : forall l,
  transactions_of_rows (map TransactionRow l) = Ok l.
Proof.
  induction l as [|t l IH]; simpl.
  - reflexivity.
  - rewrite IH. reflexivity.
Qed.

Lemma sorted_app_cross : forall (l1 l2 : list SalesTransaction),
  StronglySorted newer_first (l1 ++ l2) ->
  Forall (fun old => Forall (fun new => created_at old <= created_at new) l1) l2.
Proof.
  induction l1 as [|a l1 IH]; intros l2 H; simpl in *.
  - apply Forall_forall. intros; constructor.
  - inversion H as [|? ? Hs Ha]; subst.
    apply Forall_app in Ha. destruct Ha as [_ Ha2].
    specialize (IH _ Hs).
    rewrite Forall_forall in *. intros old Hin.
    constructor; [apply (Ha2 old Hin) | apply (IH old Hin)].
Qed.

(** C8. For positive [page] and [page_size], when the read endpoint
    executes the query, [get_transactions] returns the slice of the stored
    sales, listed newest first, that starts at offset
    [(page - 1) * page_size] and has at most [page_size] rows: the stored
    sales are [before ++ res ++ after] up to order, this list is in
    descending creation order, [before] has [offset] rows (all of them when
    fewer are stored) and [res] has [page_size] rows (the remaining ones
    when fewer remain); no returned sale is newer than a skipped one.  With
    15 stored sales, page 2 of size 10 skips 10 rows and returns the 5
    remaining ones, which are the 5 oldest. *)
Theorem get_transactions_page : forall page page_size w,
  1 <= page -> 1 <= page_size ->
  fails_next (slave_pool w) = false ->
  let stored := sales_transaction (committed (slave_pool w)) in
  let offset := Z.to_nat ((page - 1) * page_size) in
  exists res w' before after,
    get_transactions page page_size w = (Ok res, w') /\
    Permutation stored (before ++ res ++ after) /\
    StronglySorted newer_first (before ++ res ++ after) /\
    List.length before = Nat.min offset (List.length stored) /\
    List.length res = Nat.min (Z.to_nat page_size) (List.length stored - List.length before) /\
    Forall (fun old => Forall (fun new => created_at old <= created_at new) before) res /\
    committed (slave_pool w') = committed (slave_pool w).
Proof.
  intros page page_size w Hp Hs Hf stored offset.
  set (sorted := order_by_created_at_desc stored).
  exists (firstn (Z.to_nat page_size) (skipn offset sorted)).
  eexists.
  exists (firstn offset sorted), (skipn (Z.to_nat page_size) (skipn offset sorted)).
  assert (Hdec : firstn offset sorted
                 ++ firstn (Z.to_nat page_size) (skipn offset sorted)
                 ++ skipn (Z.to_nat page_size) (skipn offset sorted) = sorted).
  { rewrite (firstn_skipn (Z.to_nat page_size)). apply firstn_skipn. }
  assert (Hlen : List.length sorted = List.length stored).
  { symmetry. apply Permutation_length, order_by_perm. }
  split; [|split; [|split; [|split; [|split; [|split]]]]].
  - unfold get_transactions, bind, lift.
    assert (Hrun : run_statement (SelectTransactionsPage page_size ((page - 1) * page_size))
                     (committed (slave_pool w))
                   = Ok (Some (map TransactionRow
                                 (firstn (Z.to_nat page_size) (skipn offset sorted))),
                         committed (slave_pool w))).
    { simpl. replace (page_size <? 0) with false by (symmetry; apply Z.ltb_ge; lia).
      replace ((page - 1) * page_size <? 0) with false by (symmetry; apply Z.ltb_ge; nia).
      reflexivity. }
    rewrite (execute_read_query_ok _ _ _ _ Hf Hrun). simpl.
    rewrite transactions_of_rows_map. reflexivity.
  - rewrite Hdec. apply order_by_perm.
  - rewrite Hdec. apply order_by_sorted.
  - rewrite length_firstn, Hlen. reflexivity.
  - rewrite !length_firstn, length_skipn, Hlen. lia.
  - apply sorted_app_cross.
    assert (Hs' : StronglySorted newer_first sorted) by apply order_by_sorted.
    rewrite <- Hdec, app_assoc in Hs'.
    clear - Hs'.
    induction (firstn offset sorted ++ firstn (Z.to_nat page_size) (skipn offset sorted))
      as [|a l IH]; simpl in *.
    + constructor.
    + inversion Hs' as [|? ? H1 H2]; subst. constructor; [now apply IH|].
      apply Forall_app in H2. apply H2.
  - reflexivity.
Qed.

(** ** Creating a sale: the two loops *)

Lemma no_faults_S : forall n fs,
  no_faults (S n) fs <->
  (match fs with true :: _ => true | _ => false end) = false /\ no_faults n (tl fs).
Proof.
  intros n fs. unfold no_faults. destruct fs as [|b fs]; simpl.
  - split; [intros _; split; [reflexivity|] | intros _; constructor].
    destruct n; constructor.
  - split.
    + intros H. inversion H; subst. auto.
    + intros [Hb H]. constructor; [destruct b; [discriminate|reflexivity] | exact H].
Qed.

Lemma skipn_tl : forall (A : Type) n (l : list A), skipn n (tl l) = skipn (S n) l.
Proof.
  intros A n l. destruct l; simpl; [destruct n|]; reflexivity.
Qed.

Lemma calculate_totals_items_ok : forall L a d r,
  calculate_totals L a d = Ok r ->
  Forall (fun it => exists t, item_total it = Ok t) L.
Proof.
  induction L as [|it L IH]; intros a d r H; simpl in H.
  - constructor.
  - destruct (item_total it) as [t|e] eqn:Ht; simpl in H; [|discriminate].
    destruct (add a t) as [a'|e]; simpl in H; [|discriminate].
    destruct (add d (get_discount it)) as [d'|e]; simpl in H; [|discriminate].
    constructor; [eauto | eapply IH; eauto].
Qed.

(** One turn of the second loop, when the item has its keys and the
    endpoint is asked to insert it. *)
Lemma create_items_cons : forall tid item rest w tp disc,
  item_total item = Ok tp ->
  d_discount item = Some disc ->
  create_items tid (item :: rest) w =
    match execute_write_query
            (InsertItem tid (d_product_code item) (d_product_name item) (d_category item)
               (d_quantity item) (d_unit_price item) disc tp) w with
    | (Ok _, w1) => create_items tid rest w1
    | (Raise e, w1) => (Raise e, w1)
    end.
Proof.
  intros tid item rest w tp disc Ht Hd. simpl.
  unfold bind, lift, getitem_discount. rewrite Ht, Hd. reflexivity.
Qed.

Lemma persisted_as_inserted : forall tid item tp disc id,
  item_total item = Ok tp ->
  d_discount item = Some disc ->
  persisted_as tid item
    {| item_id := id; item_transaction_id := tid;
       product_code := d_product_code item; product_name := d_product_name item;
       category := d_category item; quantity := d_quantity item;
       unit_price := numeric_scale2 (d_unit_price item);
       discount := numeric_scale2 disc; total_price := numeric_scale2 tp |}.
Proof.
  intros tid item tp disc id Ht Hd. unfold persisted_as.
  cbn [item_transaction_id product_code product_name category quantity unit_price
       discount total_price].
  rewrite Ht, Hd. repeat split.
Qed.

(** A completed second loop has written one row per item, in order, and
    nothing else. *)
Lemma create_items_inv : forall tid items w u w',
  create_items tid items w = (Ok u, w') ->
  exists rows,
    sales_item (committed (master_pool w')) = sales_item (committed (master_pool w)) ++ rows /\
    Forall2 (persisted_as tid) items rows /\
    sales_transaction (committed (master_pool w')) = sales_transaction (committed (master_pool w)) /\
    slave_pool w' = slave_pool w.
Proof.
  intros tid items. induction items as [|item rest IH]; intros w u w' H.
  - simpl in H. unfold ret in H. inversion H; subst.
    exists []. rewrite app_nil_r. repeat split; constructor.
  - destruct (item_total item) as [tp|e] eqn:Ht;
      [|simpl in H; unfold bind, lift in H; rewrite Ht in H; discriminate].
    destruct (d_discount item) as [disc|] eqn:Hd;
      [|simpl in H; unfold bind, lift, getitem_discount in H; rewrite Ht, Hd in H; discriminate].
    rewrite (create_items_cons _ _ _ _ _ _ Ht Hd) in H.
    destruct (execute_write_query _ w) as [[rows0|e] w1] eqn:Hq; [|discriminate].
    apply execute_write_query_inv in Hq. destruct Hq as (Hrun & _ & Hsl & _).
    cbn [run_statement] in Hrun. inversion Hrun as [[Hrows Hdb]]. clear Hrun.
    destruct (IH _ _ _ H) as (rows & Hitems & Hall & Htx & Hsl').
    rewrite <- Hdb in Hitems, Htx. cbn [sales_item sales_transaction] in Hitems, Htx.
    eexists (_ :: rows). split; [|split; [|split]].
    + rewrite Hitems, <- app_assoc. reflexivity.
    + constructor; [|exact Hall]. now apply persisted_as_inserted.
    + exact Htx.
    + congruence.
Qed.

(** The second loop completes when every item has its [discount] key and a
    total, and the endpoint fails none of the inserts. *)
Lemma create_items_run : forall tid items w,
  Forall (fun it => d_discount it <> None) items ->
  Forall (fun it => exists t, item_total it = Ok t) items ->
  no_faults (List.length items) (faults (master_pool w)) ->
  exists w', create_items tid items w = (Ok tt, w') /\
             faults (master_pool w') = skipn (List.length items) (faults (master_pool w)).
Proof.
  intros tid items. induction items as [|item rest IH]; intros w Hd Ht Hf.
  - exists w. split; reflexivity.
  - apply Forall_cons_iff in Hd. destruct Hd as [Hd1 Hd2].
    apply Forall_cons_iff in Ht. destruct Ht as [[tp Ht1] Ht2].
    destruct (d_discount item) as [disc|] eqn:Hdisc; [|congruence].
    rewrite (create_items_cons _ _ _ _ _ _ Ht1 Hdisc).
    simpl List.length in Hf. apply no_faults_S in Hf. destruct Hf as [Hf1 Hf2].
    erewrite execute_write_query_ok; [|exact Hf1|reflexivity].
    match goal with |- exists w', create_items _ _ ?w1 = _ /\ _ =>
      destruct (IH w1 Hd2 Ht2 Hf2) as (w' & Hrun & Hfaults)
    end.
    exists w'. split; [exact Hrun|]. rewrite Hfaults. simpl faults.
    apply skipn_tl.
Qed.

(** The second loop over [pre ++ post] is the loop over [pre] followed by
    the loop over [post]. *)
Lemma create_items_app : forall tid pre post w,
  create_items tid (pre ++ post) w =
    match create_items tid pre w with
    | (Ok _, w1) => create_items tid post w1
    | (Raise e, w1) => (Raise e, w1)
    end.
Proof.
  intros tid pre post. induction pre as [|item rest IH]; intros w.
  - reflexivity.
  - simpl. unfold bind, lift.
    destruct (item_total item); [|reflexivity].
    destruct (getitem_discount item); [|reflexivity].
    destruct (execute_write_query _ w) as [[rows|e] w1]; [|reflexivity].
    apply IH.
Qed.

(** ** Creating a sale: the whole method *)

(** After the totals and the parent insert, [create_transaction] is the
    second loop, with its error wrapped. *)
Lemma create_transaction_step : forall data L w ta tdisc,
  calculate_totals L zero zero = Ok (ta, tdisc) ->
  fails_next (master_pool w) = false ->
  let sale := inserted_sale data ta tdisc (committed (master_pool w)) in
  let w1 := {| master_pool :=
                 {| committed := store_with_sale (committed (master_pool w)) sale;
                    faults := tl (faults (master_pool w)) |};
               slave_pool := slave_pool w |} in
  create_transaction data L w =
    match create_items (transaction_id sale) L w1 with
    | (Ok _, w2) => (Ok sale, w2)
    | (Raise e, w2) => (Raise (ExceptionFrom "Failed to create transaction" e), w2)
    end.
Proof.
  intros data L w ta tdisc Ht Hf sale w1.
  unfold create_transaction, try_except, bind, lift. rewrite Ht.
  erewrite execute_write_query_ok; [|exact Hf|reflexivity].
  simpl. fold sale. unfold bind, lift. simpl.
  change {| master_pool := _; slave_pool := slave_pool w |} with w1.
  destruct (create_items (transaction_id_seq (committed (master_pool w)) + 1) L w1)
    as [[u|e] w2]; reflexivity.
Qed.

(** A call that returns a sale has computed its totals, inserted the
    parent row and completed the second loop. *)
Lemma create_transaction_inv : forall data L w sale w',
  create_transaction data L w = (Ok sale, w') ->
  exists ta tdisc,
    calculate_totals L zero zero = Ok (ta, tdisc) /\
    fails_next (master_pool w) = false /\
    sale = inserted_sale data ta tdisc (committed (master_pool w)) /\
    create_items (transaction_id sale) L
      {| master_pool :=
           {| committed := store_with_sale (committed (master_pool w)) sale;
              faults := tl (faults (master_pool w)) |};
         slave_pool := slave_pool w |} = (Ok tt, w').
Proof.
  intros data L w sale w' H.
  destruct (calculate_totals L zero zero) as [[ta tdisc]|e] eqn:Ht.
  - destruct (fails_next (master_pool w)) eqn:Hf.
    + unfold create_transaction, try_except, bind, lift, raise in H. rewrite Ht in H.
      rewrite (execute_write_query_fault _ _ Hf) in H. discriminate.
    + rewrite (create_transaction_step _ _ _ _ _ Ht Hf) in H.
      destruct (create_items _ L _) as [[[]|e] w2] eqn:Hi; [|discriminate].
      inversion H; subst. exists ta, tdisc. repeat split; auto.
  - unfold create_transaction, try_except, bind, lift, raise in H. rewrite Ht in H.
    discriminate.
Qed.

(** A call that returns a sale was given a [discount] key in every item. *)
Lemma create_transaction_needs_discount : forall data L w sale w',
  create_transaction data L w = (Ok sale, w') ->
  Forall (fun it => d_discount it <> None) L.
Proof.
  intros data L w sale w' H.
  apply create_transaction_inv in H. destruct H as (ta & tdisc & _ & _ & _ & Hi).
  apply create_items_inv in Hi. destruct Hi as (rows & _ & Hall & _).
  clear - Hall. induction Hall as [|item r L rows Hp _ IH]; constructor; [|exact IH].
  destruct Hp as (_ & _ & _ & _ & _ & _ & Hd & _).
  destruct (d_discount item); [discriminate|]. discriminate Hd.
Qed.

(** C5. On the items [coffee] (with a discount) and [tea] (without the
    [discount] key), with both endpoints answering every statement,
    [create_transaction] raises: the second loop reads
    [item_data['discount']] and gets a [KeyError].  By then the parent row
    is committed, with totals that count the missing discount as 0
    (23.00 and 0.00), and so is the row of [coffee]; no row is stored for
    [tea]. *)
Theorem create_transaction_omitted_discount_raises :
  exists w',
    create_transaction cash_sale [coffee; tea] (fresh_manager []) =
      (Raise (ExceptionFrom "Failed to create transaction" (KeyError "discount")), w') /\
    map total_amount (sales_transaction (committed (master_pool w'))) = [mkdec 2300 (-2)] /\
    map total_discount (sales_transaction (committed (master_pool w'))) = [mkdec 0 (-2)] /\
    map product_name (sales_item (committed (master_pool w'))) = ["Coffee"%string].
Proof.
  eexists. split; [reflexivity|]. repeat split.
Qed.

(** C1, as the specification states it, fails: the insert of the second
    of two items fails, the call raises, and the store, empty before the
    call, holds the parent row and the row of the first item. *)
Lemma create_transaction_failed_item_leaves_rows :
  exists e w',
    create_transaction cash_sale [coffee; muffin] (fresh_manager [false; false; true]) =
      (Raise e, w') /\
    sales_transaction (committed (master_pool (fresh_manager [false; false; true]))) = [] /\
    sales_item (committed (master_pool (fresh_manager [false; false; true]))) = [] /\
    map transaction_id (sales_transaction (committed (master_pool w'))) = [1] /\
    map product_name (sales_item (committed (master_pool w'))) = ["Coffee"%string].
Proof.
  eexists. eexists. split; [reflexivity|]. repeat split.
Qed.

Lemma firstn_skipn_nth : forall (A : Type) (k : nat) (l : list A),
  (k < List.length l)%nat ->
  exists x, nth_error l k = Some x /\ l = firstn k l ++ x :: skipn (S k) l.
Proof.
  intros A k. induction k as [|k IH]; intros [|a l] H; simpl in H; try lia.
  - exists a. split; reflexivity.
  - destruct (IH l ltac:(lia)) as (x & Hx & Hl). exists x. split; [exact Hx|].
    change (a :: l = a :: (firstn k l ++ x :: skipn (S k) l)). f_equal. exact Hl.
Qed.

Lemma nth_error_skipn_hd : forall (A : Type) (k : nat) (l : list A),
  hd_error (skipn k l) = nth_error l k.
Proof.
  intros A k. induction k as [|k IH]; intros [|a l]; simpl; auto.
Qed.

(** C1, amended.  When the parent insert and the inserts of the first [k]
    items succeed and the insert of the next item fails,
    [create_transaction] raises the wrapped error of the driver, and the
    rows written before the failure stay committed: the parent row, with
    the totals over all of [items_data], and one row for each of the first
    [k] items.  Only the failing statement is rolled back. *)
Theorem create_transaction_keeps_committed_rows : forall data L k w ta tdisc,
  (k < List.length L)%nat ->
  no_faults (S k) (faults (master_pool w)) ->
  nth_error (faults (master_pool w)) (S k) = Some true ->
  Forall (fun it => d_discount it <> None) (firstn (S k) L) ->
  calculate_totals L zero zero = Ok (ta, tdisc) ->
  exists rows w',
    let sale := inserted_sale data ta tdisc (committed (master_pool w)) in
    create_transaction data L w =
      (Raise (ExceptionFrom "Failed to create transaction" DatabaseError), w') /\
    sales_transaction (committed (master_pool w')) =
      sales_transaction (committed (master_pool w)) ++ [sale] /\
    sales_item (committed (master_pool w')) =
      sales_item (committed (master_pool w)) ++ rows /\
    List.length rows = k /\
    Forall2 (persisted_as (transaction_id sale)) (firstn k L) rows.
Proof.
  intros data L k w ta tdisc Hk Hnf Hfail Hdisc Htot.
  apply no_faults_S in Hnf. destruct Hnf as [Hf0 Hnf].
  rewrite (create_transaction_step _ _ _ _ _ Htot Hf0).
  set (sale := inserted_sale data ta tdisc (committed (master_pool w))).
  set (w1 := {| master_pool := _; slave_pool := slave_pool w |}).
  destruct (firstn_skipn_nth _ k L Hk) as (item & Hitem & HL).
  pose proof (calculate_totals_items_ok _ _ _ _ Htot) as Hok.
  assert (Hpre : firstn (S k) L = firstn k L ++ [item]).
  { rewrite HL at 1. rewrite firstn_app, firstn_firstn, length_firstn.
    replace (Nat.min (S k) k) with k by lia.
    replace (S k - Nat.min k (List.length L))%nat with 1%nat by lia.
    reflexivity. }
  rewrite Hpre in Hdisc. apply Forall_app in Hdisc. destruct Hdisc as [Hd_pre Hd_item].
  inversion Hd_item as [|? ? Hd1 _]; subst.
  assert (Hok_pre : Forall (fun it => exists t, item_total it = Ok t) (firstn k L)).
  { rewrite HL in Hok. apply Forall_app in Hok. apply Hok. }
  assert (Hok_item : exists t, item_total item = Ok t).
  { rewrite HL in Hok. apply Forall_app in Hok. destruct Hok as [_ Hok].
    inversion Hok; subst; assumption. }
  destruct Hok_item as [tp Htp].
  destruct (d_discount item) as [disc|] eqn:Hdi; [|congruence].
  assert (Hlen : List.length (firstn k L) = k) by (rewrite length_firstn; lia).
  destruct (create_items_run (transaction_id sale) (firstn k L) w1 Hd_pre Hok_pre)
    as (w2 & Hrun & Hfaults).
  { rewrite Hlen. exact Hnf. }
  destruct (create_items_inv _ _ _ _ _ Hrun) as (rows & Hitems & Hall & Htx & _).
  assert (Hf2 : fails_next (master_pool w2) = true).
  { unfold fails_next. rewrite Hfaults, Hlen. simpl faults. rewrite skipn_tl.
    pose proof (nth_error_skipn_hd _ (S k) (faults (master_pool w))) as Hhd.
    rewrite Hfail in Hhd.
    destruct (skipn (S k) (faults (master_pool w))) as [|[|] ?]; simpl in Hhd;
      congruence. }
  exists rows. eexists. intros sale'. subst sale'.
  split; [|split; [|split; [|split]]].
  - rewrite HL at 1. rewrite create_items_app, Hrun.
    rewrite (create_items_cons _ _ _ _ _ _ Htp Hdi).
    rewrite (execute_write_query_fault _ _ Hf2). reflexivity.
  - simpl. exact Htx.
  - simpl. exact Hitems.
  - apply Forall2_length in Hall. lia.
  - exact Hall.
Qed.

(** Two items, the insert of the second fails: the parent row and the row
    of the first item stay. *)
Lemma create_transaction_keeps_committed_rows_witness :
  exists rows w',
    create_transaction cash_sale [coffee; muffin] (fresh_manager [false; false; true]) =
      (Raise (ExceptionFrom "Failed to create transaction" DatabaseError), w') /\
    map total_amount (sales_transaction (committed (master_pool w'))) = [mkdec 2500 (-2)] /\
    sales_item (committed (master_pool w')) = rows /\
    List.length rows = 1%nat.
Proof.
  destruct (create_transaction_keeps_committed_rows cash_sale [coffee; muffin] 1
              (fresh_manager [false; false; true]) (mkdec 2500 (-2)) (mkdec 50 (-2)))
    as (rows & w' & Hrun & Htx & Hitems & Hlen & _).
  - simpl. lia.
  - repeat constructor.
  - reflexivity.
  - repeat constructor; discriminate.
  - reflexivity.
  - exists rows, w'. split; [exact Hrun|]. split; [rewrite Htx; reflexivity|].
    split; [exact Hitems | exact Hlen].
Defined.

(** ** Summary statistics *)

(** On a read endpoint without sales, the four statistics are zero. *)
Lemma get_sales_stats_empty : forall w,
  fails_next (slave_pool w) = false ->
  sales_transaction (committed (slave_pool w)) = [] ->
  exists w',
    get_sales_stats w =
      (Ok {| total_transactions := 0; total_revenue := 0%Q;
             total_items_sold := 0; average_transaction_value := 0%Q |}, w').
Proof.
  intros w Hf He. unfold get_sales_stats, execute_read_query_one, bind.
  erewrite execute_read_query_ok; [|exact Hf|reflexivity].
  unfold select_stats. rewrite He. simpl. eexists. reflexivity.
Qed.

(** C4. On a read endpoint that holds sale 1 (30.00, two items) and sale 2
    (10.00, one item), [get_sales_stats] counts 2 sales and 3 items, but
    its [total_revenue] is 70 and its [average_transaction_value] is 70/3:
    the join has one row per item, and SUM and AVG take [total_amount]
    once per joined row.  The sum of [total_amount] over the two sales is
    40, and their average 20. *)
Theorem get_sales_stats_repeats_amount_per_item :
  exists s w',
    get_sales_stats reporting_manager = (Ok s, w') /\
    total_transactions s = 2 /\
    total_items_sold s = 3 /\
    (total_revenue s == 70)%Q /\
    (average_transaction_value s == 70 # 3)%Q /\
    (Qsum (map (fun t => value (total_amount t)) (sales_transaction two_sales_store)) == 40)%Q.
Proof.
  eexists. eexists. split; [reflexivity|]. repeat split.
Qed.

(** ** Decimal arithmetic below the precision of the context *)

Lemma digits_aux_le : forall fuel n k,
  0 <= k -> 0 <= n < 10 ^ k -> digits_aux fuel n <= k.
Proof.
  induction fuel as [|fuel IH]; intros n k Hk Hn; cbn [digits_aux].
  - exact Hk.
  - destruct (Z.eqb_spec n 0) as [|Hnz]; [exact Hk|].
    assert (Hk1 : 1 <= k).
    { destruct (Z.eq_dec k 0) as [->|]; [|lia]. simpl in Hn. lia. }
    assert (Hpow : 10 ^ k = 10 * 10 ^ (k - 1)).
    { rewrite <- Z.pow_succ_r by lia. f_equal. lia. }
    assert (Hdiv : 0 <= n / 10 < 10 ^ (k - 1)).
    { rewrite Hpow in Hn. destruct Hn as [Hn0 Hn1].
      split; [apply Z.div_pos; lia|]. apply Z.div_lt_upper_bound; [lia|exact Hn1]. }
    specialize (IH (n / 10) (k - 1) ltac:(lia) Hdiv). lia.
Qed.

Lemma ndigits_le : forall c k, 0 <= k -> Z.abs c < 10 ^ k -> ndigits c <= k.
Proof.
  intros c k Hk Hc. unfold ndigits. apply digits_aux_le; [exact Hk|]. lia.
Qed.

Lemma digits_aux_0 : forall fuel, digits_aux fuel 0 = 0.
Proof.
  destruct fuel; reflexivity.
Qed.

(** With fuel for the binary digits of [n], [digits_aux] counts the
    decimal digits of [n]. *)
Lemma digits_aux_spec : forall fuel n,
  0 < n < 2 ^ Z.of_nat fuel ->
  10 ^ (digits_aux fuel n - 1) <= n < 10 ^ digits_aux fuel n.
Proof.
  induction fuel as [|fuel IH]; intros n [Hn0 Hn1].
  - simpl in Hn1. lia.
  - cbn [digits_aux]. destruct (Z.eqb_spec n 0) as [|_]; [lia|].
    rewrite Nat2Z.inj_succ, Z.pow_succ_r in Hn1 by lia.
    destruct (Z_lt_le_dec n 10) as [Hsmall|Hbig].
    + rewrite Z.div_small, digits_aux_0 by lia. simpl. lia.
    + assert (Hq : 0 < n / 10 < 2 ^ Z.of_nat fuel).
      { split.
        - apply Z.lt_le_trans with 1; [lia|]. apply Z.div_le_lower_bound; lia.
        - apply Z.div_lt_upper_bound; [lia|].
          pose proof (Z.pow_pos_nonneg 2 (Z.of_nat fuel) ltac:(lia) ltac:(lia)). lia. }
      specialize (IH _ Hq).
      set (d := digits_aux fuel (n / 10)) in *.
      assert (Hd : 1 <= d).
      { destruct (Z_lt_le_dec d 1) as [Hlt|]; [|assumption].
        destruct (Z.eq_dec d 0) as [Hd0|Hd0].
        - rewrite Hd0 in IH. simpl in IH. lia.
        - rewrite (Z.pow_neg_r 10 d) in IH by lia. lia. }
      replace (1 + d - 1) with (Z.succ (d - 1)) by lia.
      replace (1 + d) with (Z.succ d) by lia.
      rewrite !Z.pow_succ_r by lia.
      replace (10 ^ d) with (10 * 10 ^ (d - 1)) in *
        by (rewrite <- Z.pow_succ_r by lia; f_equal; lia).
      pose proof (Z.mul_div_le n 10 ltac:(lia)).
      pose proof (Z.mul_succ_div_gt n 10 ltac:(lia)).
      lia.
Qed.

(** [ndigits] is the number of decimal digits of a non-zero coefficient. *)
Lemma ndigits_spec : forall c,
  c <> 0 -> 10 ^ (ndigits c - 1) <= Z.abs c < 10 ^ ndigits c.
Proof.
  intros c Hc. unfold ndigits. apply digits_aux_spec.
  split; [lia|].
  rewrite Nat2Z.inj_succ, Z2Nat.id by apply Z.log2_nonneg.
  apply Z.log2_spec. lia.
Qed.

(** A number of at most 28 digits with an exponent in range is left as
    it is by the context. *)
Lemma dec_fix_exact : forall d,
  Z.abs (coef d) < 10 ^ prec -> Etiny <= expo d <= Etop -> dec_fix d = Ok d.
Proof.
  intros [c e] Hc He. simpl in Hc, He. unfold dec_fix. simpl coef. simpl expo.
  assert (HE : Etiny = -1000026 /\ Etop = 999972 /\ Emax = 999999 /\ prec = 28)
    by (repeat split; reflexivity).
  destruct HE as (HEtiny & HEtop & HEmax & Hprec).
  destruct (Z.eqb_spec c 0) as [->|Hnz].
  - f_equal. f_equal. lia.
  - pose proof (ndigits_le c prec ltac:(lia) Hc) as Hd.
    destruct (Z.ltb_spec Etop (ndigits c + e - prec)) as [Hlt|_]; [lia|].
    destruct (Z.ltb_spec e (Z.max (ndigits c + e - prec) Etiny)) as [Hlt|_]; [lia|].
    reflexivity.
Qed.

Section Scale.

Variable s : Z.
Hypothesis s_range : 0 <= s <= 1000026.

Lemma pow10_pos : forall n, 0 <= n -> 1 <= 10 ^ n.
Proof.
  intros n Hn. pose proof (Z.pow_pos_nonneg 10 n ltac:(lia) Hn). lia.
Qed.

Lemma coef_le_units : forall d, - s <= expo d -> Z.abs (coef d) <= Z.abs (units s d).
Proof.
  intros d Hd. unfold units. rewrite Z.abs_mul.
  pose proof (pow10_pos (expo d + s) ltac:(lia)) as Hp.
  rewrite (Z.abs_eq (10 ^ (expo d + s))) by lia.
  pose proof (Z.abs_nonneg (coef d)). nia.
Qed.

Lemma exponent_in_range : forall e, - s <= e <= 0 -> Etiny <= e <= Etop.
Proof.
  intros e He. unfold Etiny, Etop, Emin, Emax, prec. lia.
Qed.

Lemma mul_exact : forall a q,
  - s <= expo a <= 0 ->
  Z.abs (units s a) * Z.abs q < 10 ^ prec ->
  mul a (of_int q) = Ok (mkdec (coef a * q) (expo a)).
Proof.
  intros a q He Hb. unfold mul, of_int. simpl coef. simpl expo.
  rewrite Z.add_0_r. apply dec_fix_exact; cbn [coef expo].
  - rewrite Z.abs_mul. eapply Z.le_lt_trans; [|exact Hb].
    apply Z.mul_le_mono_nonneg_r; [apply Z.abs_nonneg|].
    apply coef_le_units. lia.
  - now apply exponent_in_range.
Qed.

Lemma units_mul : forall a q,
  units s (mkdec (coef a * q) (expo a)) = units s a * q.
Proof.
  intros a q. unfold units. simpl. ring.
Qed.

Lemma units_aligned : forall c e e',
  - s <= e' <= e -> c * 10 ^ (e - e') * 10 ^ (e' + s) = c * 10 ^ (e + s).
Proof.
  intros c e e' H. rewrite <- Z.mul_assoc, <- Z.pow_add_r by lia.
  f_equal. f_equal. lia.
Qed.

Lemma units_add : forall a b,
  - s <= expo a -> - s <= expo b ->
  let e := Z.min (expo a) (expo b) in
  units s (mkdec (coef a * 10 ^ (expo a - e) + coef b * 10 ^ (expo b - e)) e)
  = units s a + units s b.
Proof.
  intros a b Ha Hb e. unfold units. simpl coef. simpl expo.
  rewrite Z.mul_add_distr_r.
  rewrite !units_aligned by (subst e; lia). reflexivity.
Qed.

Lemma add_exact : forall a b,
  - s <= expo a <= 0 -> - s <= expo b <= 0 ->
  Z.abs (units s a) + Z.abs (units s b) < 10 ^ prec ->
  exists r, add a b = Ok r /\
            - s <= expo r <= 0 /\
            units s r = units s a + units s b.
Proof.
  intros a b Ha Hb Hbound.
  set (e := Z.min (expo a) (expo b)).
  set (r := mkdec (coef a * 10 ^ (expo a - e) + coef b * 10 ^ (expo b - e)) e).
  assert (Hu : units s r = units s a + units s b) by (apply units_add; lia).
  assert (Her : - s <= expo r <= 0) by (simpl; subst e; lia).
  exists r. split; [|split; assumption].
  unfold add. fold e. fold r. apply dec_fix_exact.
  - pose proof (coef_le_units r ltac:(lia)). lia.
  - now apply exponent_in_range.
Qed.

Lemma units_neg : forall b, units s (neg b) = - units s b.
Proof.
  intros b. unfold units, neg. simpl. ring.
Qed.

Lemma sub_exact : forall a b,
  - s <= expo a <= 0 -> - s <= expo b <= 0 ->
  Z.abs (units s a) + Z.abs (units s b) < 10 ^ prec ->
  exists r, sub a b = Ok r /\
            - s <= expo r <= 0 /\
            units s r = units s a - units s b.
Proof.
  intros a b Ha Hb Hbound. unfold sub.
  destruct (add_exact a (neg b)) as (r & Hr & He & Hu).
  - exact Ha.
  - exact Hb.
  - rewrite units_neg, Z.abs_opp. exact Hbound.
  - exists r. rewrite units_neg in Hu. repeat split; try tauto; lia.
Qed.

End Scale.

(** ** The totals of [create_transaction] *)

Section Totals.

Variable s : Z.
Hypothesis s_range : 0 <= s <= 1000026.

Lemma item_total_exact : forall item,
  within_scale s item ->
  Z.abs (units s (d_unit_price item)) * Z.abs (d_quantity item)
    + Z.abs (units s (get_discount item)) < 10 ^ prec ->
  exists t, item_total item = Ok t /\
            - s <= expo t <= 0 /\
            units s t = line_units s item.
Proof.
  intros item [Hup Hdi] Hb. unfold item_total.
  pose proof (Z.abs_nonneg (units s (get_discount item))) as Hd0.
  rewrite (mul_exact s s_range _ _ Hup) by lia. cbn [rbind].
  set (p := mkdec (coef (d_unit_price item) * d_quantity item) (expo (d_unit_price item))).
  assert (Hp : units s p = units s (d_unit_price item) * d_quantity item)
    by apply units_mul.
  destruct (sub_exact s s_range p (get_discount item)) as (t & Ht & He & Hu).
  - exact Hup.
  - exact Hdi.
  - rewrite Hp, Z.abs_mul. exact Hb.
  - exists t. split; [exact Ht|]. split; [exact He|].
    unfold line_units. rewrite Hu, Hp. reflexivity.
Qed.

Lemma mass_nonneg : forall L, 0 <= mass s L.
Proof.
  induction L as [|item L IH]; unfold mass in *; simpl.
  - lia.
  - pose proof (Z.abs_nonneg (units s (d_unit_price item))).
    pose proof (Z.abs_nonneg (d_quantity item)).
    pose proof (Z.abs_nonneg (units s (get_discount item))). nia.
Qed.

Lemma mass_cons : forall item L,
  mass s (item :: L) =
    Z.abs (units s (d_unit_price item)) * Z.abs (d_quantity item)
    + Z.abs (units s (get_discount item)) + mass s L.
Proof.
  intros item L. reflexivity.
Qed.

Lemma line_units_bound : forall item,
  Z.abs (line_units s item) <=
    Z.abs (units s (d_unit_price item)) * Z.abs (d_quantity item)
    + Z.abs (units s (get_discount item)).
Proof.
  intros item. unfold line_units. rewrite <- Z.abs_mul. lia.
Qed.

(** The first loop, from accumulators that leave room for the mass of the
    items, rounds nothing: in units of [10^-s] its results are the sums. *)
Lemma calculate_totals_exact : forall L a d,
  Forall (within_scale s) L ->
  - s <= expo a <= 0 -> - s <= expo d <= 0 ->
  Z.abs (units s a) + mass s L < 10 ^ prec ->
  Z.abs (units s d) + mass s L < 10 ^ prec ->
  exists ta tdisc,
    calculate_totals L a d = Ok (ta, tdisc) /\
    units s ta = units s a + Zsum (map (line_units s) L) /\
    units s tdisc = units s d + Zsum (map (fun it => units s (get_discount it)) L) /\
    - s <= expo ta <= 0 /\ - s <= expo tdisc <= 0.
Proof.
  induction L as [|item L IH]; intros a d Hscale Ha Hd Hba Hbd.
  - exists a, d. simpl. repeat split; lia.
  - apply Forall_cons_iff in Hscale. destruct Hscale as [Hitem Hscale].
    rewrite mass_cons in Hba, Hbd.
    pose proof (mass_nonneg L) as Hm.
    pose proof (line_units_bound item) as Hl.
    pose proof (Z.abs_nonneg (units s a)) as Ha0.
    pose proof (Z.abs_nonneg (units s d)) as Hd0.
    pose proof (Z.abs_nonneg (units s (get_discount item))) as Hg0.
    pose proof (Z.abs_nonneg (units s (d_unit_price item))) as Hu0.
    pose proof (Z.abs_nonneg (d_quantity item)) as Hq0.
    assert (Hw0 : 0 <= Z.abs (units s (d_unit_price item)) * Z.abs (d_quantity item)) by nia.
    destruct (item_total_exact item Hitem ltac:(lia)) as (t & Ht & Het & Hut).
    destruct (add_exact s s_range a t Ha Het ltac:(lia)) as (a' & Ha' & Hea' & Hua').
    destruct (add_exact s s_range d (get_discount item) Hd (proj2 Hitem) ltac:(lia))
      as (d' & Hd' & Hed' & Hud').
    destruct (IH a' d' Hscale Hea' Hed' ltac:(lia) ltac:(lia))
      as (ta & tdisc & Hrun & Hta & Htd & Heta & Hetd).
    exists ta, tdisc. cbn [calculate_totals]. rewrite Ht. cbn [rbind].
    rewrite Ha'. cbn [rbind]. rewrite Hd'. cbn [rbind].
    split; [exact Hrun|]. simpl map. simpl Zsum.
    repeat split; lia.
Qed.

Lemma value_units : forall d,
  - s <= expo d ->
  (value d == inject_Z (units s d) * Qpower (10 # 1) (- s))%Q.
Proof.
  intros d Hd. unfold value, units.
  rewrite inject_Z_mult, Zpower_Qpower by lia.
  change (inject_Z 10) with (10 # 1).
  rewrite <- Qmult_assoc, <- Qpower_plus by discriminate.
  replace (expo d + s + - s) with (expo d) by lia. reflexivity.
Qed.

Lemma exact_total_amount_units : forall L,
  Forall (within_scale s) L ->
  (exact_total_amount L == inject_Z (Zsum (map (line_units s) L)) * Qpower (10 # 1) (- s))%Q.
Proof.
  induction L as [|item L IH]; intros Hscale.
  - unfold exact_total_amount. simpl. ring.
  - apply Forall_cons_iff in Hscale. destruct Hscale as [[Hup Hdi] Hscale].
    unfold exact_total_amount in *. simpl map. simpl Qsum. simpl Zsum.
    rewrite (IH Hscale). unfold exact_line_total, line_units.
    rewrite (value_units (d_unit_price item)), (value_units (get_discount item)) by lia.
    rewrite inject_Z_plus. unfold Z.sub. rewrite inject_Z_plus, inject_Z_opp, inject_Z_mult.
    ring.
Qed.

Lemma exact_total_discount_units : forall L,
  Forall (within_scale s) L ->
  (exact_total_discount L ==
   inject_Z (Zsum (map (fun it => units s (get_discount it)) L)) * Qpower (10 # 1) (- s))%Q.
Proof.
  induction L as [|item L IH]; intros Hscale.
  - unfold exact_total_discount. simpl. ring.
  - apply Forall_cons_iff in Hscale. destruct Hscale as [[Hup Hdi] Hscale].
    unfold exact_total_discount in *. simpl map. simpl Qsum. simpl Zsum.
    rewrite (IH Hscale).
    rewrite (value_units (get_discount item)) by lia.
    rewrite inject_Z_plus. ring.
Qed.

End Totals.

(** A number with at most two decimals is kept as it is by its column. *)
Lemma value_numeric_scale2 : forall d,
  - 2 <= expo d -> (value (numeric_scale2 d) == value d)%Q.
Proof.
  intros d Hd. unfold numeric_scale2.
  replace (-2 <=? expo d) with true by (symmetry; apply Z.leb_le; lia).
  rewrite (value_units 2 d) by lia. reflexivity.
Qed.




(** ** The item rows of a sale *)

(** The row of an item priced in cents keeps its amounts, and its
    [total_price] is its own [unit_price * quantity - discount]. *)
Lemma persisted_line_total : forall tid item r,
  persisted_as tid item r -> priced_in_cents item -> line_total_holds r.
Proof.
  intros tid item r (_ & _ & _ & _ & Hq & Hu & Hd & Ht) [Hscale Hbound].
  change (10 ^ 28) with (10 ^ prec) in Hbound.
  assert (Hs : 0 <= 2 <= 1000026) by lia.
  destruct (item_total_exact 2 Hs item Hscale Hbound) as (t & Htot & Het & Hut).
  rewrite Htot in Ht. cbn [rbind] in Ht. inversion Ht as [Htp]. clear Ht.
  destruct Hscale as [Hup Hdi].
  assert (Hdisc : discount r = numeric_scale2 (get_discount item)).
  { unfold get_discount. destruct (d_discount item); [|discriminate Hd].
    simpl in Hd. congruence. }
  unfold line_total_holds. rewrite <- Htp, Hu, Hdisc, Hq.
  rewrite !value_numeric_scale2 by lia.
  rewrite (value_units 2 t), (value_units 2 (d_unit_price item)),
    (value_units 2 (get_discount item)) by lia.
  rewrite Hut. unfold line_units, Z.sub.
  rewrite inject_Z_plus, inject_Z_opp, inject_Z_mult. ring.
Qed.

(** C3, as the specification states it, fails: for one item of unit price
    0.125 and quantity 2, [create_transaction] succeeds and stores a row
    with [unit_price] 0.13 and [total_price] 0.25, which is not
    [0.13 * 2 - 0.00]: each column is rounded to two decimals on its
    own. *)
Lemma create_transaction_item_columns_rounded :
  exists sale w' r,
    create_transaction cash_sale [eighths 2] (fresh_manager []) = (Ok sale, w') /\
    sales_item (committed (master_pool w')) = [r] /\
    unit_price r = mkdec 13 (-2) /\
    total_price r = mkdec 25 (-2) /\
    ~ line_total_holds r.
Proof.
  eexists. eexists. eexists. split; [vm_compute; reflexivity|].
  split; [reflexivity|]. split; [reflexivity|]. split; [reflexivity|].
  unfold line_total_holds, Qeq. vm_compute. discriminate.
Qed.

(** C3, amended.  A call of [create_transaction] that returns a sale has
    appended to [sales_item] exactly one row per element of [items_data],
    in order: each row carries the identity of the returned sale and the
    columns of its item, the decimal ones at two decimals; and the row of
    an item whose price and discount have at most two decimals (and whose
    line total has at most 28 digits) has as [total_price] exactly its own
    [unit_price * quantity - discount].  The returned sale is the one row
    appended to [sales_transaction]. *)
Theorem create_transaction_persists_items : forall data L w sale w',
  create_transaction data L w = (Ok sale, w') ->
  exists rows,
    sales_item (committed (master_pool w')) = sales_item (committed (master_pool w)) ++ rows /\
    List.length rows = List.length L /\
    Forall2 (fun item r =>
               persisted_as (transaction_id sale) item r /\
               (priced_in_cents item -> line_total_holds r)) L rows /\
    sales_transaction (committed (master_pool w')) =
      sales_transaction (committed (master_pool w)) ++ [sale].
Proof.
  intros data L w sale w' H.
  apply create_transaction_inv in H. destruct H as (ta & tdisc & _ & _ & _ & Hi).
  apply create_items_inv in Hi. destruct Hi as (rows & Hitems & Hall & Htx & _).
  cbn [master_pool committed store_with_sale sales_item sales_transaction] in Hitems, Htx.
  exists rows. split; [exact Hitems|]. split; [|split; [|exact Htx]].
  - symmetry. eapply Forall2_length; eauto.
  - clear - Hall. induction Hall as [|item r L rows Hp _ IH]; constructor; [|exact IH].
    split; [exact Hp|]. intros Hc. eapply persisted_line_total; eauto.
Qed.

(** The example sale: items (10.00, 2, 0.00) and (5.50, 1, 0.50) give two
    rows, with [total_price] 20.00 and 5.00. *)
Lemma create_transaction_persists_items_witness :
  exists sale w' rows,
    create_transaction cash_sale [coffee; muffin] (fresh_manager []) = (Ok sale, w') /\
    sales_item (committed (master_pool w')) = rows /\
    Forall2 (fun item r =>
               persisted_as (transaction_id sale) item r /\
               (priced_in_cents item -> line_total_holds r)) [coffee; muffin] rows /\
    map total_price rows = [mkdec 2000 (-2); mkdec 500 (-2)] /\
    map item_transaction_id rows = [transaction_id sale; transaction_id sale] /\
    Forall line_total_holds rows.
Proof.
  pose proof (create_transaction_persists_items cash_sale [coffee; muffin] (fresh_manager [])
                _ _ eq_refl) as (rows & Hitems & _ & Hall & _).
  simpl in Hitems.
  eexists. eexists. exists rows. split; [reflexivity|].
  split; [exact Hitems|]. split; [exact Hall|].
  rewrite <- Hitems. split; [reflexivity|]. split; [reflexivity|].
  repeat constructor; unfold line_total_holds, Qeq; vm_compute; reflexivity.
Defined.

(** ** The properties at concrete inputs *)

(** Page 2 of size 10 over the fifteen sales: the five oldest, newest
    first. *)
Lemma get_transactions_page_witness :
  exists res w',
    get_transactions 2 10 archive_manager = (Ok res, w') /\
    map transaction_id res = [5; 4; 3; 2; 1] /\
    List.length res = 5%nat.
Proof.
  destruct (get_transactions_page 2 10 archive_manager)
    as (res & w' & before & after & Hrun & _ & _ & Hb & Hr & _).
  - lia.
  - lia.
  - reflexivity.
  - exists res, w'. split; [exact Hrun|].
    vm_compute in Hrun. inversion Hrun. split; reflexivity.
Defined.

(** Sale 1 of the two stored sales is overwritten and returned; no sale
    has identity 9. *)
Lemma update_and_lookup_by_identity_witness :
  (exists w', update_transaction 1 card_update reporting_manager =
                (Ok (Some {| transaction_id := 1; transaction_time := 12; cashier_id := 4;
                             store_id := 2; payment_method := "Credit Card";
                             total_amount := mkdec 9999 (-2);
                             total_discount := mkdec 0 (-2);
                             customer_id := Some 77; created_at := 10 |}), w')) /\
  (exists w', get_transaction 1 reporting_manager =
                (Ok (Some (sale_row 1 (mkdec 3000 (-2)) 10)), w')) /\
  (exists w', update_transaction 9 card_update reporting_manager = (Ok None, w')) /\
  (exists w', get_transaction 9 reporting_manager = (Ok None, w')).
Proof.
  destruct (update_and_lookup_by_identity 1 card_update reporting_manager reporting_manager
              eq_refl eq_refl) as [(w1 & Hu1 & _) (w2 & Hg1 & _)].
  destruct (update_and_lookup_by_identity 9 card_update reporting_manager reporting_manager
              eq_refl eq_refl) as [(w3 & Hu9 & _) (w4 & Hg9 & _)].
  split; [exists w1; exact Hu1|]. split; [exists w2; exact Hg1|].
  split; [exists w3; exact Hu9 | exists w4; exact Hg9].
Defined.

(** No stored sale has identity 9: deleting it returns [True] and changes
    nothing. *)
Lemma delete_transaction_absent_is_true_witness :
  exists w',
    delete_transaction 9 reporting_manager = (Ok true, w') /\
    committed (master_pool w') = two_sales_store.
Proof.
  destruct (delete_transaction_absent_is_true 9 reporting_manager)
    as [(w' & Hrun & Hsame) _].
  - reflexivity.
  - repeat constructor; simpl; lia.
  - exists w'. split; [exact Hrun | exact Hsame].
Defined.

(** * Further properties of the service *)

(** ** What a call of [create_transaction] can leave behind *)

(** Whatever its outcome, the second loop has written rows for a prefix
    of the items and nothing else. *)
Lemma create_items_any : forall tid items w r w',
  create_items tid items w = (r, w') ->
  exists rows,
    sales_item (committed (master_pool w')) = sales_item (committed (master_pool w)) ++ rows /\
    Forall2 (persisted_as tid) (firstn (List.length rows) items) rows /\
    sales_transaction (committed (master_pool w')) = sales_transaction (committed (master_pool w)) /\
    transaction_id_seq (committed (master_pool w')) = transaction_id_seq (committed (master_pool w)) /\
    slave_pool w' = slave_pool w.
Proof.
  intros tid items. induction items as [|item rest IH]; intros w r w' H.
  - simpl in H. unfold ret in H. inversion H; subst.
    exists []. rewrite app_nil_r. repeat split; constructor.
  - assert (Hstop : (r, w') = (r, w) -> w' = w) by (intros E; inversion E; reflexivity).
    destruct (item_total item) as [tp|e] eqn:Ht.
    2:{ simpl in H. unfold bind, lift in H. rewrite Ht in H. inversion H; subst.
        exists []. rewrite app_nil_r. repeat split; constructor. }
    destruct (d_discount item) as [disc|] eqn:Hd.
    2:{ simpl in H. unfold bind, lift, getitem_discount in H. rewrite Ht, Hd in H.
        inversion H; subst. exists []. rewrite app_nil_r. repeat split; constructor. }
    rewrite (create_items_cons _ _ _ _ _ _ Ht Hd) in H.
    destruct (fails_next (master_pool w)) eqn:Hf.
    + rewrite (execute_write_query_fault _ _ Hf) in H. inversion H; subst. simpl.
      exists []. rewrite app_nil_r. repeat split; constructor.
    + erewrite execute_write_query_ok in H; [|exact Hf|reflexivity].
      destruct (IH _ _ _ H) as (rows & Hitems & Hall & Htx & Hseq & Hsl).
      cbn [master_pool slave_pool committed sales_item sales_transaction transaction_id_seq]
        in Hitems, Htx, Hseq, Hsl.
      eexists (_ :: rows). split; [|split; [|split; [|split]]].
      * rewrite Hitems, <- app_assoc. reflexivity.
      * cbn [List.length firstn]. constructor; [|exact Hall].
        now apply persisted_as_inserted.
      * exact Htx.
      * exact Hseq.
      * exact Hsl.
Qed.

Lemma create_transaction_overflow : forall data L w e,
  calculate_totals L zero zero = Raise e ->
  create_transaction data L w = (Raise (ExceptionFrom "Failed to create transaction" e), w).
Proof.
  intros data L w e H. unfold create_transaction, try_except, bind, lift, raise.
  rewrite H. reflexivity.
Qed.

Lemma create_transaction_parent_fault : forall data L w ta tdisc,
  calculate_totals L zero zero = Ok (ta, tdisc) ->
  fails_next (master_pool w) = true ->
  create_transaction data L w =
    (Raise (ExceptionFrom "Failed to create transaction" DatabaseError),
     {| master_pool := {| committed := committed (master_pool w);
                          faults := tl (faults (master_pool w)) |};
        slave_pool := slave_pool w |}).
Proof.
  intros data L w ta tdisc Ht Hf. unfold create_transaction, try_except, bind, lift, raise.
  rewrite Ht, (execute_write_query_fault _ _ Hf). reflexivity.
Qed.

Lemma create_transaction_store : forall data L w,
  let db := committed (master_pool w) in
  let w' := snd (create_transaction data L w) in
  let db' := committed (master_pool w') in
  slave_pool w' = slave_pool w /\
  (db' = db \/
   exists sale rows,
     sales_transaction db' = sales_transaction db ++ [sale] /\
     transaction_id sale = transaction_id_seq db + 1 /\
     transaction_id_seq db' = transaction_id_seq db + 1 /\
     sales_item db' = sales_item db ++ rows /\
     Forall2 (persisted_as (transaction_id sale)) (firstn (List.length rows) L) rows).
Proof.
  intros data L w db w' db'. subst db w' db'.
  destruct (calculate_totals L zero zero) as [[ta tdisc]|e] eqn:Ht.
  - destruct (fails_next (master_pool w)) eqn:Hf.
    + rewrite (create_transaction_parent_fault _ _ _ _ _ Ht Hf). simpl. auto.
    + rewrite (create_transaction_step _ _ _ _ _ Ht Hf).
      set (sale := inserted_sale data ta tdisc (committed (master_pool w))).
      set (w1 := {| master_pool := _; slave_pool := slave_pool w |}).
      destruct (create_items (transaction_id sale) L w1) as [r w2] eqn:Hi.
      destruct (create_items_any _ _ _ _ _ Hi) as (rows & Hitems & Hall & Htx & Hseq & Hsl).
      assert (Hgoal : slave_pool w2 = slave_pool w /\
                (committed (master_pool w2) = committed (master_pool w) \/
                 exists sale0 rows0,
                   sales_transaction (committed (master_pool w2)) =
                     sales_transaction (committed (master_pool w)) ++ [sale0] /\
                   transaction_id sale0 = transaction_id_seq (committed (master_pool w)) + 1 /\
                   transaction_id_seq (committed (master_pool w2)) =
                     transaction_id_seq (committed (master_pool w)) + 1 /\
                   sales_item (committed (master_pool w2)) =
                     sales_item (committed (master_pool w)) ++ rows0 /\
                   Forall2 (persisted_as (transaction_id sale0))
                     (firstn (List.length rows0) L) rows0)).
      { split; [exact Hsl|]. right. exists sale, rows. repeat split; assumption. }
      destruct r; exact Hgoal.
  - rewrite (create_transaction_overflow _ _ _ _ Ht). simpl. auto.
Qed.

(** X1. Whatever the items, the faults of the endpoints and the outcome,
    a call of [create_transaction] leaves the read endpoint as it was, and
    on the write endpoint either the store as it was, or the store with
    one more sale, of the next identity of the sequence, and one row for
    each item of a prefix of [items_data], tagged with that identity. *)
Theorem create_transaction_writes_parent_and_prefix : forall data L w,
  let db := committed (master_pool w) in
  let w' := snd (create_transaction data L w) in
  let db' := committed (master_pool w') in
  slave_pool w' = slave_pool w /\
  (db' = db \/
   exists sale rows,
     sales_transaction db' = sales_transaction db ++ [sale] /\
     transaction_id sale = transaction_id_seq db + 1 /\
     transaction_id_seq db' = transaction_id_seq db + 1 /\
     sales_item db' = sales_item db ++ rows /\
     Forall2 (persisted_as (transaction_id sale)) (firstn (List.length rows) L) rows).
Proof.
  intros data L w db w' db'.
  destruct (create_transaction_store data L w) as [Hslave Hstore].
  split; [exact Hslave|].
  destruct Hstore as [Hsame|(sale & rows & Htx & Hid & Hseq & Hitems & Hall)].
  - left. exact Hsame.
  - right. exists sale, rows. repeat split; assumption.
Qed.

(** The errors of [Decimal] arithmetic are overflows. *)
Lemma dec_fix_raises : forall d e, dec_fix d = Raise e -> e = DecimalOverflow.
Proof.
  intros d e H. unfold dec_fix in H.
  repeat match type of H with
         | (if ?c then _ else _) = _ => destruct c
         end; congruence.
Qed.

Lemma item_total_raises : forall item e, item_total item = Raise e -> e = DecimalOverflow.
Proof.
  intros item e H. unfold item_total, rbind, mul, sub, add in H.
  match type of H with
  | (match ?m with _ => _ end) = _ => destruct m as [p|e0] eqn:Hm
  end.
  - now apply dec_fix_raises in H.
  - apply dec_fix_raises in Hm. congruence.
Qed.

Lemma calculate_totals_raises : forall L a d e,
  calculate_totals L a d = Raise e -> e = DecimalOverflow.
Proof.
  induction L as [|item L IH]; intros a d e H; simpl in H.
  - discriminate.
  - destruct (item_total item) as [t|e0] eqn:Ht; simpl in H.
    2:{ apply item_total_raises in Ht. congruence. }
    destruct (add a t) as [a'|e0] eqn:Ha; simpl in H.
    2:{ apply dec_fix_raises in Ha. congruence. }
    destruct (add d (get_discount item)) as [d'|e0] eqn:Hd; simpl in H.
    2:{ apply dec_fix_raises in Hd. congruence. }
    eapply IH; eauto.
Qed.

Lemma create_items_raises : forall tid items w e w',
  create_items tid items w = (Raise e, w') ->
  e = DatabaseError \/ e = KeyError "discount" \/ e = DecimalOverflow.
Proof.
  intros tid items. induction items as [|item rest IH]; intros w e w' H.
  - discriminate.
  - destruct (item_total item) as [tp|e0] eqn:Ht.
    2:{ simpl in H. unfold bind, lift in H. rewrite Ht in H. inversion H; subst.
        apply item_total_raises in Ht. auto. }
    destruct (d_discount item) as [disc|] eqn:Hd.
    2:{ simpl in H. unfold bind, lift, getitem_discount in H. rewrite Ht, Hd in H.
        inversion H; subst. auto. }
    rewrite (create_items_cons _ _ _ _ _ _ Ht Hd) in H.
    destruct (fails_next (master_pool w)) eqn:Hf.
    + rewrite (execute_write_query_fault _ _ Hf) in H. inversion H; subst. auto.
    + erewrite execute_write_query_ok in H; [|exact Hf|reflexivity].
      eapply IH; eauto.
Qed.

(** X2. An error of [create_transaction] is never the bare error of the
    driver, of the dictionary or of [Decimal]: it is an [Exception] with
    the message "Failed to create transaction" that wraps the cause, and
    the cause is the error of the driver, the [KeyError] of a missing
    [discount] key, or [decimal.Overflow].  The [Exception] that the method
    raises itself on an empty result of the parent insert never occurs. *)
Theorem create_transaction_raises_wrapped : forall data L w e w',
  create_transaction data L w = (Raise e, w') ->
  exists cause,
    e = ExceptionFrom "Failed to create transaction" cause /\
    (cause = DatabaseError \/ cause = KeyError "discount" \/ cause = DecimalOverflow).
Proof.
  intros data L w e w' H.
  destruct (calculate_totals L zero zero) as [[ta tdisc]|e0] eqn:Ht.
  - destruct (fails_next (master_pool w)) eqn:Hf.
    + rewrite (create_transaction_parent_fault _ _ _ _ _ Ht Hf) in H.
      inversion H; subst. eauto.
    + rewrite (create_transaction_step _ _ _ _ _ Ht Hf) in H.
      match type of H with
      | (match ?m with _ => _ end) = _ => destruct m as [[u|e1] w2] eqn:Hi
      end; [discriminate|].
      inversion H; subst. apply create_items_raises in Hi. eauto.
  - rewrite (create_transaction_overflow _ _ _ _ Ht) in H. inversion H; subst.
    apply calculate_totals_raises in Ht. eauto.
Qed.

Lemma create_transaction_raises_wrapped_witness :
  exists w',
    create_transaction cash_sale [coffee; tea] (fresh_manager []) =
      (Raise (ExceptionFrom "Failed to create transaction" (KeyError "discount")), w').
Proof.
  destruct (create_transaction_raises_wrapped cash_sale [coffee; tea] (fresh_manager [])
              _ _ eq_refl) as [cause Hc].
  eexists. reflexivity.
Defined.

(** X3. When the insert of the parent row fails, [create_transaction]
    raises the wrapped error of the driver and nothing is stored: the
    write endpoint has spent one interaction and its store is as it was. *)
Theorem create_transaction_parent_failure_stores_nothing : forall data L w ta tdisc,
  calculate_totals L zero zero = Ok (ta, tdisc) ->
  fails_next (master_pool w) = true ->
  exists w',
    create_transaction data L w =
      (Raise (ExceptionFrom "Failed to create transaction" DatabaseError), w') /\
    committed (master_pool w') = committed (master_pool w) /\
    faults (master_pool w') = tl (faults (master_pool w)) /\
    slave_pool w' = slave_pool w.
Proof.
  intros data L w ta tdisc Ht Hf.
  rewrite (create_transaction_parent_fault _ _ _ _ _ Ht Hf). eexists.
  split; [reflexivity|]. simpl. auto.
Qed.

Lemma create_transaction_parent_failure_stores_nothing_witness :
  exists w',
    create_transaction cash_sale [coffee; muffin] (fresh_manager [true]) =
      (Raise (ExceptionFrom "Failed to create transaction" DatabaseError), w') /\
    committed (master_pool w') = empty_store.
Proof.
  destruct (create_transaction_parent_failure_stores_nothing cash_sale [coffee; muffin]
              (fresh_manager [true]) (mkdec 2500 (-2)) (mkdec 50 (-2)) eq_refl eq_refl)
    as (w' & Hrun & Hdb & _).
  exists w'. split; [exact Hrun | exact Hdb].
Defined.

Lemma calculate_totals_overflow : forall L a d,
  Exists (fun it => item_total it = Raise DecimalOverflow) L ->
  calculate_totals L a d = Raise DecimalOverflow.
Proof.
  induction L as [|item L IH]; intros a d H.
  - inversion H.
  - simpl. destruct (item_total item) as [t|e] eqn:Ht.
    + inversion H as [? ? Hhd|? ? Htl]; subst; [congruence|].
      simpl. destruct (add a t) as [a'|e] eqn:Ha; simpl.
      2:{ apply dec_fix_raises in Ha. now subst. }
      destruct (add d (get_discount item)) as [d'|e] eqn:Hd; simpl.
      2:{ apply dec_fix_raises in Hd. now subst. }
      now apply IH.
    + apply item_total_raises in Ht. now subst.
Qed.

(** X4. When the line total of some item overflows the exponent range of
    the [Decimal] context, [create_transaction] raises the wrapped
    [decimal.Overflow] before any statement is sent: the two endpoints are
    exactly as they were, whatever the other items are. *)
Theorem create_transaction_overflow_sends_nothing : forall data L w,
  Exists (fun it => item_total it = Raise DecimalOverflow) L ->
  create_transaction data L w =
    (Raise (ExceptionFrom "Failed to create transaction" DecimalOverflow), w).
Proof.
  intros data L w H.
  apply create_transaction_overflow.
  now apply calculate_totals_overflow.
Qed.

Lemma create_transaction_overflow_sends_nothing_witness :
  create_transaction cash_sale [coffee; huge_price] (fresh_manager []) =
    (Raise (ExceptionFrom "Failed to create transaction" DecimalOverflow), fresh_manager []).
Proof.
  apply (create_transaction_overflow_sends_nothing cash_sale [coffee; huge_price]
           (fresh_manager [])).
  apply Exists_cons_tl. apply Exists_cons_hd. vm_compute. reflexivity.
Defined.

(** X5. [create_transaction] does not reject an empty list of items:
    when the write endpoint executes the insert, it stores and returns a
    sale whose [total_amount] and [total_discount] are zero, as the columns
    hand them back ([Decimal('0.00')]), and writes no item row. *)
Theorem create_transaction_empty_items : forall data w,
  fails_next (master_pool w) = false ->
  exists sale w',
    create_transaction data [] w = (Ok sale, w') /\
    total_amount sale = mkdec 0 (-2) /\ total_discount sale = mkdec 0 (-2) /\
    (value (total_amount sale) == 0)%Q /\ (value (total_discount sale) == 0)%Q /\
    sales_transaction (committed (master_pool w')) =
      sales_transaction (committed (master_pool w)) ++ [sale] /\
    sales_item (committed (master_pool w')) = sales_item (committed (master_pool w)).
Proof.
  intros data w Hf.
  rewrite (create_transaction_step data [] w zero zero eq_refl Hf).
  cbn [create_items ret].
  eexists. eexists. split; [reflexivity|].
  repeat split.
Qed.

Lemma create_transaction_empty_items_witness :
  exists sale w',
    create_transaction cash_sale [] (fresh_manager []) = (Ok sale, w') /\
    total_amount sale = mkdec 0 (-2) /\
    sales_item (committed (master_pool w')) = [].
Proof.
  destruct (create_transaction_empty_items cash_sale (fresh_manager []) eq_refl)
    as (sale & w' & Hrun & Ha & _ & _ & _ & _ & Hitems).
  exists sale, w'. split; [exact Hrun|]. split; [exact Ha | exact Hitems].
Defined.

(** ** Which endpoint an operation uses *)

Lemma update_transaction_run : forall id data w,
  fails_next (master_pool w) = false ->
  update_transaction id data w =
    (Ok (option_map (overwritten data)
           (hd_error (filter (has_id id) (sales_transaction (committed (master_pool w)))))),
     {| master_pool :=
          {| committed :=
               {| sales_transaction :=
                    map (fun t => if has_id id t then overwritten data t else t)
                        (sales_transaction (committed (master_pool w)));
                  sales_item := sales_item (committed (master_pool w));
                  transaction_id_seq := transaction_id_seq (committed (master_pool w));
                  item_id_seq := item_id_seq (committed (master_pool w));
                  current_timestamp := current_timestamp (committed (master_pool w)) |};
             faults := tl (faults (master_pool w)) |};
        slave_pool := slave_pool w |}).
Proof.
  intros id data w Hf. unfold update_transaction, bind.
  erewrite execute_write_query_ok; [|exact Hf|reflexivity].
  destruct (filter (has_id id) (sales_transaction (committed (master_pool w))));
    reflexivity.
Qed.

Lemma update_transaction_fault : forall id data w,
  fails_next (master_pool w) = true ->
  update_transaction id data w =
    (Raise DatabaseError,
     {| master_pool := {| committed := committed (master_pool w);
                          faults := tl (faults (master_pool w)) |};
        slave_pool := slave_pool w |}).
Proof.
  intros id data w Hf. unfold update_transaction, bind.
  rewrite (execute_write_query_fault _ _ Hf). reflexivity.
Qed.

Lemma delete_transaction_run : forall id w,
  fails_next (master_pool w) = false ->
  delete_transaction id w =
    (Ok true,
     {| master_pool :=
          {| committed :=
               {| sales_transaction :=
                    filter (fun t => negb (has_id id t))
                           (sales_transaction (committed (master_pool w)));
                  sales_item :=
                    if existsb (has_id id) (sales_transaction (committed (master_pool w)))
                    then filter (fun i => negb (of_transaction id i))
                                (sales_item (committed (master_pool w)))
                    else sales_item (committed (master_pool w));
                  transaction_id_seq := transaction_id_seq (committed (master_pool w));
                  item_id_seq := item_id_seq (committed (master_pool w));
                  current_timestamp := current_timestamp (committed (master_pool w)) |};
             faults := tl (faults (master_pool w)) |};
        slave_pool := slave_pool w |}).
Proof.
  intros id w Hf. unfold delete_transaction, try_except, bind, ret.
  erewrite execute_write_query_ok; [|exact Hf|reflexivity]. reflexivity.
Qed.

Lemma delete_transaction_fault : forall id w,
  fails_next (master_pool w) = true ->
  delete_transaction id w =
    (Ok false,
     {| master_pool := {| committed := committed (master_pool w);
                          faults := tl (faults (master_pool w)) |};
        slave_pool := slave_pool w |}).
Proof.
  intros id w Hf. unfold delete_transaction, try_except, bind, ret.
  rewrite (execute_write_query_fault _ _ Hf). reflexivity.
Qed.

(** The reads, as functions of the read endpoint. *)
Definition slave_view {A : Type} (f : M A) : Prop :=
  forall w1 w2, slave_pool w1 = slave_pool w2 -> fst (f w1) = fst (f w2).

Definition read_only {A : Type} (f : M A) : Prop :=
  forall w, master_pool (snd (f w)) = master_pool w /\
            committed (slave_pool (snd (f w))) = committed (slave_pool w).

Ltac read_path :=
  unfold get_transactions, get_transaction, get_sales_stats, get_items_by_transaction,
    get_top_products, execute_read_query_one, execute_report_query, execute_read_query,
    cursor_execute, bind, ret, lift, raise.

Lemma get_transaction_slave_view : forall id, slave_view (get_transaction id).
Proof.
  intros id w1 w2 H. read_path. rewrite H.
  destruct (faults (slave_pool w2)) as [|[|] fs]; simpl; try reflexivity;
    destruct (filter (has_id id) (sales_transaction (committed (slave_pool w2))));
    reflexivity.
Qed.

Lemma get_transactions_slave_view : forall page page_size,
  slave_view (get_transactions page page_size).
Proof.
  intros page page_size w1 w2 H. read_path. rewrite H.
  destruct (faults (slave_pool w2)) as [|[|] fs]; simpl; try reflexivity;
    destruct ((page_size <? 0) || ((page - 1) * page_size <? 0)); reflexivity.
Qed.

Lemma get_sales_stats_slave_view : slave_view get_sales_stats.
Proof.
  intros w1 w2 H. read_path. rewrite H.
  destruct (faults (slave_pool w2)) as [|[|] fs]; reflexivity.
Qed.

Lemma get_transaction_read_only : forall id, read_only (get_transaction id).
Proof.
  intros id w. read_path.
  destruct (faults (slave_pool w)) as [|[|] fs]; simpl; auto;
    destruct (filter (has_id id) (sales_transaction (committed (slave_pool w))));
    simpl; auto.
Qed.

Lemma get_transactions_read_only : forall page page_size,
  read_only (get_transactions page page_size).
Proof.
  intros page page_size w. read_path.
  destruct (faults (slave_pool w)) as [|[|] fs]; simpl; auto;
    destruct ((page_size <? 0) || ((page - 1) * page_size <? 0)); simpl; auto.
Qed.

Lemma get_sales_stats_read_only : read_only get_sales_stats.
Proof.
  intros w. read_path.
  destruct (faults (slave_pool w)) as [|[|] fs]; simpl; auto.
Qed.

Lemma get_items_by_transaction_read_only : forall id, read_only (get_items_by_transaction id).
Proof.
  intros id w. read_path.
  destruct (faults (slave_pool w)) as [|[|] fs]; simpl; auto.
Qed.

Lemma get_top_products_read_only : forall limit, read_only (get_top_products limit).
Proof.
  intros limit w. read_path.
  destruct (faults (slave_pool w)) as [|[|] fs]; simpl; auto.
Qed.

Lemma update_transaction_slave : forall id data w,
  slave_pool (snd (update_transaction id data w)) = slave_pool w.
Proof.
  intros id data w. destruct (fails_next (master_pool w)) eqn:Hf.
  - rewrite (update_transaction_fault _ _ _ Hf). reflexivity.
  - rewrite (update_transaction_run _ _ _ Hf). reflexivity.
Qed.

Lemma delete_transaction_slave : forall id w,
  slave_pool (snd (delete_transaction id w)) = slave_pool w.
Proof.
  intros id w. destruct (fails_next (master_pool w)) eqn:Hf.
  - rewrite (delete_transaction_fault _ _ Hf). reflexivity.
  - rewrite (delete_transaction_run _ _ Hf). reflexivity.
Qed.

Lemma create_transaction_slave : forall data L w,
  slave_pool (snd (create_transaction data L w)) = slave_pool w.
Proof.
  intros data L w. apply (create_transaction_store data L w).
Qed.

(** X6. The reads use the read endpoint only: whatever the arguments and
    the faults, [get_transactions], [get_transaction], [get_sales_stats],
    [get_items_by_transaction] and [get_top_products] leave the write
    endpoint as it was (they do not even spend one of its interactions) and
    change no row of the read endpoint.  [update_transaction] and
    [delete_transaction] leave the read endpoint as it was. *)
Theorem operations_keep_to_their_endpoint :
  (forall page page_size, read_only (get_transactions page page_size)) /\
  (forall id, read_only (get_transaction id)) /\
  read_only get_sales_stats /\
  (forall id, read_only (get_items_by_transaction id)) /\
  (forall limit, read_only (get_top_products limit)) /\
  (forall id data w, slave_pool (snd (update_transaction id data w)) = slave_pool w) /\
  (forall id w, slave_pool (snd (delete_transaction id w)) = slave_pool w).
Proof.
  repeat split;
    first [ apply get_transactions_read_only | apply get_transaction_read_only
          | apply get_sales_stats_read_only | apply get_items_by_transaction_read_only
          | apply get_top_products_read_only | apply update_transaction_slave
          | apply delete_transaction_slave ].
Qed.

(** X7. No read sees a write of the program: after [create_transaction],
    [update_transaction] or [delete_transaction], with any arguments and
    any outcome, [get_transaction], [get_transactions] and
    [get_sales_stats] answer what they would have answered before it.  A
    sale just created is found by a lookup only once the read endpoint has
    received it from outside the program. *)
Theorem reads_ignore_writes : forall w w',
  (exists data L, w' = snd (create_transaction data L w)) \/
  (exists id data, w' = snd (update_transaction id data w)) \/
  (exists id, w' = snd (delete_transaction id w)) ->
  (forall id, fst (get_transaction id w') = fst (get_transaction id w)) /\
  (forall page page_size,
     fst (get_transactions page page_size w') = fst (get_transactions page page_size w)) /\
  fst (get_sales_stats w') = fst (get_sales_stats w).
Proof.
  intros w w' H.
  assert (Hs : slave_pool w' = slave_pool w).
  { destruct H as [(data & L & ->)|[(id & data & ->)|(id & ->)]].
    - apply create_transaction_slave.
    - apply update_transaction_slave.
    - apply delete_transaction_slave. }
  split; [|split].
  - intros id. now apply get_transaction_slave_view.
  - intros page page_size. now apply get_transactions_slave_view.
  - now apply get_sales_stats_slave_view.
Qed.

(** The sale created on an empty pair of endpoints is not found by a
    lookup of its identity. *)
Lemma reads_ignore_writes_witness :
  exists sale w' w'',
    create_transaction cash_sale [coffee; muffin] (fresh_manager []) = (Ok sale, w') /\
    get_transaction (transaction_id sale) w' = (Ok None, w'').
Proof.
  destruct (reads_ignore_writes (fresh_manager [])
              (snd (create_transaction cash_sale [coffee; muffin] (fresh_manager []))))
    as (Hget & _ & _).
  - left. exists cash_sale, [coffee; muffin]. reflexivity.
  - eexists. eexists. eexists. split; [reflexivity|].
    specialize (Hget 1). simpl in Hget.
    apply injective_projections; [exact Hget | reflexivity].
Defined.

(** ** Invariants of the write endpoint *)

Lemma map_id_overwritten : forall id data l,
  map transaction_id (map (fun t => if has_id id t then overwritten data t else t) l)
  = map transaction_id l.
Proof.
  intros id data l. rewrite map_map. apply map_ext.
  intros t. destruct (has_id id t); reflexivity.
Qed.

Lemma NoDup_map_filter : forall (A B : Type) (f : A -> B) (p : A -> bool) (l : list A),
  NoDup (map f l) -> NoDup (map f (filter p l)).
Proof.
  intros A B f p l. induction l as [|x l IH]; intros H; simpl in *.
  - constructor.
  - inversion H as [|? ? Hnin Hnd]; subst. destruct (p x); simpl.
    + constructor; [|now apply IH].
      intros Hin. apply Hnin. apply in_map_iff in Hin.
      destruct Hin as (y & Hy & Hin). apply filter_In in Hin.
      apply in_map_iff. exists y. tauto.
    + now apply IH.
Qed.

Lemma existsb_has_id_in : forall id l,
  existsb (has_id id) l = true <-> In id (map transaction_id l).
Proof.
  intros id l. rewrite existsb_exists, in_map_iff. unfold has_id.
  split; intros (t & H1 & H2); exists t.
  - apply Z.eqb_eq in H2. tauto.
  - split; [tauto|]. apply Z.eqb_eq. tauto.
Qed.

(** The stores that the three writes can leave, for the invariants. *)
Lemma update_transaction_store : forall id data w,
  let db := committed (master_pool w) in
  let db' := committed (master_pool (snd (update_transaction id data w))) in
  db' = db \/
  (sales_transaction db' =
     map (fun t => if has_id id t then overwritten data t else t) (sales_transaction db) /\
   sales_item db' = sales_item db /\
   transaction_id_seq db' = transaction_id_seq db).
Proof.
  intros id data w db db'. subst db db'.
  destruct (fails_next (master_pool w)) eqn:Hf.
  - rewrite (update_transaction_fault _ _ _ Hf). left. reflexivity.
  - rewrite (update_transaction_run _ _ _ Hf). right. simpl. auto.
Qed.

Lemma delete_transaction_store : forall id w,
  let db := committed (master_pool w) in
  let db' := committed (master_pool (snd (delete_transaction id w))) in
  db' = db \/
  (sales_transaction db' = filter (fun t => negb (has_id id t)) (sales_transaction db) /\
   sales_item db' =
     (if existsb (has_id id) (sales_transaction db)
      then filter (fun i => negb (of_transaction id i)) (sales_item db)
      else sales_item db) /\
   transaction_id_seq db' = transaction_id_seq db).
Proof.
  intros id w db db'. subst db db'.
  destruct (fails_next (master_pool w)) eqn:Hf.
  - rewrite (delete_transaction_fault _ _ Hf). left. reflexivity.
  - rewrite (delete_transaction_run _ _ Hf). right. simpl. auto.
Qed.

(** X8. Identities stay unique.  On a write endpoint where no stored sale
    is ahead of the sequence and no two stored sales share an identity,
    this still holds after [create_transaction], [update_transaction] and
    [delete_transaction], with any arguments and whether they succeed,
    fail, or fail half-way. *)
Theorem writes_keep_identities_unique : forall w,
  keys_in_sequence (committed (master_pool w)) ->
  (forall data L,
     keys_in_sequence (committed (master_pool (snd (create_transaction data L w))))) /\
  (forall id data,
     keys_in_sequence (committed (master_pool (snd (update_transaction id data w))))) /\
  (forall id,
     keys_in_sequence (committed (master_pool (snd (delete_transaction id w))))).
Proof.
  intros w [Hle Hnd]. split; [|split].
  - intros data L.
    destruct (create_transaction_store data L w)
      as [_ [Hsame|(sale & rows & Htx & Hid & Hseq & _)]].
    + rewrite Hsame. split; assumption.
    + unfold keys_in_sequence. rewrite Htx, Hseq. split.
      * apply Forall_app. split.
        -- eapply Forall_impl; [|exact Hle]. intros t Ht. simpl in Ht. lia.
        -- constructor; [lia|constructor].
      * rewrite map_app. simpl.
        apply NoDup_app_remove_l with (l := []). simpl.
        apply Permutation_NoDup with (l := transaction_id sale :: map transaction_id
                                           (sales_transaction (committed (master_pool w)))).
        -- apply Permutation_cons_append.
        -- constructor; [|exact Hnd].
           intros Hin. apply in_map_iff in Hin. destruct Hin as (t & Ht & Hin).
           rewrite Forall_forall in Hle. specialize (Hle _ Hin). lia.
  - intros id data.
    destruct (update_transaction_store id data w) as [Hsame|(Htx & _ & Hseq)].
    + rewrite Hsame. split; assumption.
    + unfold keys_in_sequence. rewrite Htx, Hseq, map_id_overwritten. split; [|exact Hnd].
      apply Forall_map. eapply Forall_impl; [|exact Hle].
      intros t Ht. destruct (has_id id t); exact Ht.
  - intros id.
    destruct (delete_transaction_store id w) as [Hsame|(Htx & _ & Hseq)].
    + rewrite Hsame. split; assumption.
    + unfold keys_in_sequence. rewrite Htx, Hseq. split.
      * apply Forall_forall. intros t Hin. apply filter_In in Hin.
        rewrite Forall_forall in Hle. apply Hle. tauto.
      * now apply NoDup_map_filter.
Qed.

Lemma writes_keep_identities_unique_witness :
  keys_in_sequence
    (committed (master_pool
       (snd (create_transaction cash_sale [coffee; tea] (fresh_manager []))))) /\
  keys_in_sequence
    (committed (master_pool (snd (delete_transaction 1 reporting_manager)))).
Proof.
  split.
  - apply (writes_keep_identities_unique (fresh_manager [])).
    split; simpl; constructor.
  - apply (writes_keep_identities_unique reporting_manager).
    split; simpl.
    + repeat constructor; simpl; lia.
    + repeat constructor; simpl; intuition lia.
Defined.

(** X9. No item is orphaned.  On a write endpoint where every stored item
    belongs to a stored sale, this still holds after [create_transaction],
    [update_transaction] and [delete_transaction], with any arguments and
    any outcome: a sale left without some of its items is possible, an item
    without its sale is not. *)
Theorem writes_keep_references : forall w,
  references_hold (committed (master_pool w)) ->
  (forall data L,
     references_hold (committed (master_pool (snd (create_transaction data L w))))) /\
  (forall id data,
     references_hold (committed (master_pool (snd (update_transaction id data w))))) /\
  (forall id,
     references_hold (committed (master_pool (snd (delete_transaction id w))))).
Proof.
  intros w Href. unfold references_hold in *. split; [|split].
  - intros data L.
    destruct (create_transaction_store data L w)
      as [_ [Hsame|(sale & rows & Htx & _ & _ & Hitems & Hall)]].
    + rewrite Hsame. exact Href.
    + rewrite Htx, Hitems. apply Forall_app. split.
      * eapply Forall_impl; [|exact Href]. intros i Hi. simpl in Hi.
        rewrite existsb_app, Hi. reflexivity.
      * clear - Hall. remember (firstn (List.length rows) L) as pre. clear Heqpre.
        induction Hall as [|item r pre rows Hp _ IH]; constructor; [|exact IH].
        destruct Hp as (Hid & _). rewrite existsb_app. simpl.
        unfold has_id at 2. rewrite Hid, Z.eqb_refl. apply orb_true_iff. right. reflexivity.
  - intros id data.
    destruct (update_transaction_store id data w) as [Hsame|(Htx & Hitems & _)].
    + rewrite Hsame. exact Href.
    + rewrite Htx, Hitems. eapply Forall_impl; [|exact Href].
      intros i Hi. simpl in Hi. apply existsb_has_id_in.
      rewrite map_id_overwritten. now apply existsb_has_id_in.
  - intros id.
    destruct (delete_transaction_store id w) as [Hsame|(Htx & Hitems & _)].
    + rewrite Hsame. exact Href.
    + rewrite Htx, Hitems.
      destruct (existsb (has_id id) (sales_transaction (committed (master_pool w)))) eqn:Hex.
      * apply Forall_forall. intros i Hin. apply filter_In in Hin. destruct Hin as [Hin Hne].
        rewrite Forall_forall in Href. specialize (Href _ Hin).
        apply existsb_exists in Href. destruct Href as (t & Ht & Hid).
        apply existsb_exists. exists t. split; [|exact Hid].
        apply filter_In. split; [exact Ht|].
        unfold has_id, of_transaction in *. apply Z.eqb_eq in Hid.
        apply negb_true_iff in Hne. apply Z.eqb_neq in Hne.
        apply negb_true_iff. apply Z.eqb_neq. lia.
      * rewrite filter_none; [exact Href|].
        apply Forall_forall. intros t Hin. apply negb_true_iff.
        destruct (has_id id t) eqn:Ht; [|reflexivity].
        assert (existsb (has_id id) (sales_transaction (committed (master_pool w))) = true)
          by (apply existsb_exists; eauto).
        congruence.
Qed.

Lemma writes_keep_references_witness :
  references_hold
    (committed (master_pool
       (snd (create_transaction cash_sale [coffee; muffin]
               (fresh_manager [false; false; true]))))) /\
  references_hold
    (committed (master_pool (snd (delete_transaction 1 reporting_manager)))).
Proof.
  split.
  - apply (writes_keep_references (fresh_manager [false; false; true])). constructor.
  - apply (writes_keep_references reporting_manager). repeat constructor.
Defined.

(** ** Composing the writes *)

(** X10. Creating a sale and deleting it restores the two tables.  On a
    write endpoint whose identities come from the sequence and whose items
    all belong to stored sales, after a call of [create_transaction] that
    returns a sale, [delete_transaction] of its identity, when the endpoint
    executes it, returns [True] and leaves [sales_transaction] and
    [sales_item] as they were before the creation: the cascade removes
    every row the creation wrote and no other. *)
Theorem create_then_delete_restores : forall data L w sale w1,
  keys_in_sequence (committed (master_pool w)) ->
  references_hold (committed (master_pool w)) ->
  create_transaction data L w = (Ok sale, w1) ->
  fails_next (master_pool w1) = false ->
  exists w2,
    delete_transaction (transaction_id sale) w1 = (Ok true, w2) /\
    sales_transaction (committed (master_pool w2)) =
      sales_transaction (committed (master_pool w)) /\
    sales_item (committed (master_pool w2)) = sales_item (committed (master_pool w)).
Proof.
  intros data L w sale w1 [Hle _] Href Hcreate Hf.
  apply create_transaction_inv in Hcreate.
  destruct Hcreate as (ta & tdisc & _ & _ & Hsale & Hitems).
  apply create_items_inv in Hitems.
  destruct Hitems as (rows & Hrows & Hall & Htx & _). simpl in Hrows, Htx.
  assert (Hid : transaction_id sale = transaction_id_seq (committed (master_pool w)) + 1)
    by (rewrite Hsale; reflexivity).
  rewrite (delete_transaction_run _ _ Hf). eexists. split; [reflexivity|].
  simpl. rewrite Htx, Hrows.
  assert (Hold : filter (fun t => negb (has_id (transaction_id sale) t))
                   (sales_transaction (committed (master_pool w)))
                 = sales_transaction (committed (master_pool w))).
  { apply filter_none. eapply Forall_impl; [|exact Hle].
    intros t Ht. simpl in Ht. apply negb_true_iff. unfold has_id. apply Z.eqb_neq. lia. }
  split.
  - rewrite filter_app, Hold. simpl. unfold has_id at 1. rewrite Z.eqb_refl. simpl.
    apply app_nil_r.
  - rewrite existsb_app. simpl. unfold has_id at 2. rewrite Z.eqb_refl.
    rewrite orb_true_r.
    rewrite filter_app.
    assert (Hitems_old : filter (fun i => negb (of_transaction (transaction_id sale) i))
                           (sales_item (committed (master_pool w)))
                         = sales_item (committed (master_pool w))).
    { apply filter_none. unfold references_hold in Href.
      eapply Forall_impl; [|exact Href]. intros i Hi. simpl in Hi.
      apply existsb_exists in Hi. destruct Hi as (t & Hin & Ht).
      rewrite Forall_forall in Hle. specialize (Hle _ Hin). simpl in Hle.
      unfold has_id in Ht. apply Z.eqb_eq in Ht.
      apply negb_true_iff. unfold of_transaction. apply Z.eqb_neq. lia. }
    rewrite Hitems_old.
    assert (Hnew : filter (fun i => negb (of_transaction (transaction_id sale) i)) rows = []).
    { clear - Hall. induction Hall as [|item r L rows Hp _ IH]; simpl; [reflexivity|].
      destruct Hp as (Hid & _). unfold of_transaction at 1. rewrite Hid, Z.eqb_refl. simpl.
      exact IH. }
    rewrite Hnew. apply app_nil_r.
Qed.

Lemma create_then_delete_restores_witness :
  exists sale w1 w2,
    create_transaction cash_sale [coffee; muffin] reporting_manager = (Ok sale, w1) /\
    delete_transaction (transaction_id sale) w1 = (Ok true, w2) /\
    sales_transaction (committed (master_pool w2)) = sales_transaction two_sales_store /\
    sales_item (committed (master_pool w2)) = sales_item two_sales_store.
Proof.
  edestruct (create_then_delete_restores cash_sale [coffee; muffin] reporting_manager)
    as (w2 & Hdel & Htx & Hitems).
  - split; simpl.
    + repeat constructor; simpl; lia.
    + repeat constructor; simpl; intuition lia.
  - repeat constructor.
  - reflexivity.
  - reflexivity.
  - eexists. eexists. exists w2. split; [reflexivity|]. split; [exact Hdel|].
    split; [exact Htx | exact Hitems].
Defined.

Lemma overwritten_twice : forall data t, overwritten data (overwritten data t) = overwritten data t.
Proof.
  reflexivity.
Qed.

(** X11. [update_transaction] is idempotent.  When the write endpoint
    executes both statements, a second call with the same identity and the
    same [update_data] returns what the first returned and leaves the store
    that the first left. *)
Theorem update_transaction_idempotent : forall id data w,
  no_faults 2 (faults (master_pool w)) ->
  exists r w1 w2,
    update_transaction id data w = (Ok r, w1) /\
    update_transaction id data w1 = (Ok r, w2) /\
    committed (master_pool w2) = committed (master_pool w1).
Proof.
  intros id data w Hnf.
  apply no_faults_S in Hnf. destruct Hnf as [Hf1 Hnf].
  apply no_faults_S in Hnf. destruct Hnf as [Hf2 _].
  set (sales := sales_transaction (committed (master_pool w))).
  set (g := fun t => if has_id id t then overwritten data t else t).
  assert (Hid : forall t, has_id id (g t) = has_id id t).
  { intros t. unfold g. destruct (has_id id t) eqn:Ht; exact Ht. }
  assert (Hg : forall t, g (g t) = g t).
  { intros t. unfold g at 1. rewrite Hid. unfold g.
    destruct (has_id id t); reflexivity. }
  assert (Hmap : map g (map g sales) = map g sales).
  { rewrite map_map. apply map_ext. exact Hg. }
  assert (Hhd : option_map (overwritten data) (hd_error (filter (has_id id) (map g sales)))
                = option_map (overwritten data) (hd_error (filter (has_id id) sales))).
  { rewrite !hd_error_filter_find. clear - Hid. induction sales as [|t l IH]; simpl.
    - reflexivity.
    - rewrite Hid. destruct (has_id id t) eqn:Ht.
      + unfold g. rewrite Ht. reflexivity.
      + exact IH. }
  rewrite (update_transaction_run _ _ _ Hf1).
  fold sales. fold g.
  eexists. eexists. eexists. split; [reflexivity|].
  rewrite update_transaction_run by exact Hf2.
  cbn [master_pool slave_pool committed faults sales_transaction sales_item
       transaction_id_seq item_id_seq current_timestamp].
  fold g. rewrite Hhd, Hmap. split; reflexivity.
Qed.

Lemma update_transaction_idempotent_witness :
  exists r w1 w2,
    update_transaction 1 card_update reporting_manager = (Ok r, w1) /\
    update_transaction 1 card_update w1 = (Ok r, w2) /\
    committed (master_pool w2) = committed (master_pool w1).
Proof.
  apply (update_transaction_idempotent 1 card_update reporting_manager).
  repeat constructor.
Defined.

(** ** Failures of the statements *)

(** X12. Unlike [delete_transaction], the other operations let the error
    of the driver through, unwrapped: when the write endpoint fails the
    statement, [update_transaction] raises it and the store is as it was;
    when the read endpoint fails the statement, [get_transaction],
    [get_transactions], [get_sales_stats], [get_items_by_transaction] and
    [get_top_products] raise it. *)
Theorem statement_errors_propagate : forall w1 w2,
  fails_next (master_pool w1) = true ->
  fails_next (slave_pool w2) = true ->
  (forall id data,
     fst (update_transaction id data w1) = Raise DatabaseError /\
     committed (master_pool (snd (update_transaction id data w1)))
       = committed (master_pool w1)) /\
  (forall id, fst (get_transaction id w2) = Raise DatabaseError) /\
  (forall page page_size, fst (get_transactions page page_size w2) = Raise DatabaseError) /\
  fst (get_sales_stats w2) = Raise DatabaseError /\
  (forall id, fst (get_items_by_transaction id w2) = Raise DatabaseError) /\
  (forall limit, fst (get_top_products limit w2) = Raise DatabaseError).
Proof.
  intros w1 w2 Hm Hs. split.
  - intros id data. rewrite (update_transaction_fault _ _ _ Hm). split; reflexivity.
  - unfold fails_next in Hs.
    destruct (faults (slave_pool w2)) as [|[|] fs] eqn:Hfs; try discriminate.
    repeat split; intros; read_path; rewrite Hfs; reflexivity.
Qed.

Lemma statement_errors_propagate_witness :
  fst (update_transaction 1 card_update (fresh_manager [true])) = Raise DatabaseError /\
  fst (get_sales_stats
         {| master_pool := master_pool reporting_manager;
            slave_pool := {| committed := two_sales_store; faults := [true] |} |})
    = Raise DatabaseError.
Proof.
  destruct (statement_errors_propagate (fresh_manager [true])
              {| master_pool := master_pool reporting_manager;
                 slave_pool := {| committed := two_sales_store; faults := [true] |} |}
              eq_refl eq_refl) as (Hu & _ & _ & Hs & _).
  split; [apply (Hu 1 card_update) | exact Hs].
Defined.

(** ** More on the paginated listing *)

Lemma get_transactions_run : forall page page_size w,
  fails_next (slave_pool w) = false ->
  0 <= page_size -> 0 <= (page - 1) * page_size ->
  get_transactions page page_size w =
    (Ok (firstn (Z.to_nat page_size)
           (skipn (Z.to_nat ((page - 1) * page_size))
              (order_by_created_at_desc (sales_transaction (committed (slave_pool w)))))),
     {| master_pool := master_pool w;
        slave_pool := {| committed := committed (slave_pool w);
                         faults := tl (faults (slave_pool w)) |} |}).
Proof.
  intros page page_size w Hf Hs Ho. unfold get_transactions, bind, lift.
  erewrite execute_read_query_ok; [|exact Hf|].
  2:{ simpl. replace (page_size <? 0) with false by (symmetry; apply Z.ltb_ge; lia).
      replace ((page - 1) * page_size <? 0) with false by (symmetry; apply Z.ltb_ge; lia).
      reflexivity. }
  simpl. rewrite transactions_of_rows_map. reflexivity.
Qed.

(** X13. There is no page 0: for a positive [page_size] and a [page]
    below 1 the offset [(page - 1) * page_size] is negative, the statement
    is refused, and [get_transactions] raises the error of the driver
    instead of returning the first page or an empty list. *)
Theorem get_transactions_rejects_page_below_one : forall page page_size w,
  page < 1 -> 1 <= page_size ->
  fails_next (slave_pool w) = false ->
  fst (get_transactions page page_size w) = Raise DatabaseError.
Proof.
  intros page page_size w Hp Hs Hf. unfold get_transactions, bind, lift.
  unfold execute_read_query. rewrite (cursor_execute_ok _ _ Hf). simpl.
  replace ((page - 1) * page_size <? 0) with true by (symmetry; apply Z.ltb_lt; nia).
  rewrite orb_true_r. reflexivity.
Qed.

Lemma get_transactions_rejects_page_below_one_witness :
  fst (get_transactions 0 10 archive_manager) = Raise DatabaseError.
Proof.
  apply (get_transactions_rejects_page_below_one 0 10 archive_manager); [lia|lia|reflexivity].
Defined.

(** X14. A page past the last stored sale is empty, not an error: for
    positive [page] and [page_size] with at least as many rows skipped as
    are stored, [get_transactions] returns the empty list. *)
Theorem get_transactions_past_the_end : forall page page_size w,
  1 <= page -> 1 <= page_size ->
  fails_next (slave_pool w) = false ->
  Z.of_nat (List.length (sales_transaction (committed (slave_pool w))))
    <= (page - 1) * page_size ->
  fst (get_transactions page page_size w) = Ok [].
Proof.
  intros page page_size w Hp Hs Hf Hlen.
  rewrite get_transactions_run by (try assumption; nia). simpl.
  rewrite skipn_all2; [destruct (Z.to_nat page_size); reflexivity|].
  rewrite <- (Permutation_length (order_by_perm _)). lia.
Qed.

Lemma get_transactions_past_the_end_witness :
  fst (get_transactions 3 10 archive_manager) = Ok [].
Proof.
  apply (get_transactions_past_the_end 3 10 archive_manager);
    [lia | lia | reflexivity | simpl; lia].
Defined.

Lemma firstn_plus : forall (A : Type) (a b : nat) (l : list A),
  firstn (a + b) l = firstn a l ++ firstn b (skipn a l).
Proof.
  intros A a. induction a as [|a IH]; intros b l.
  - reflexivity.
  - destruct l as [|x l]; simpl.
    + destruct b; reflexivity.
    + rewrite IH. reflexivity.
Qed.

Lemma NoDup_map_injective : forall (A B : Type) (f : A -> B) l a b,
  NoDup (map f l) -> In a l -> In b l -> f a = f b -> a = b.
Proof.
  intros A B f l a b. induction l as [|x l IH]; intros Hnd Ha Hb Hab.
  - destruct Ha.
  - simpl in Hnd. apply NoDup_cons_iff in Hnd. destruct Hnd as [Hx Hnd].
    destruct Ha as [->|Ha], Hb as [->|Hb].
    + reflexivity.
    + exfalso. apply Hx. rewrite Hab. now apply in_map.
    + exfalso. apply Hx. rewrite <- Hab. now apply in_map.
    + now apply IH.
Qed.

(** Without two sales created at the same time, ORDER BY created_at DESC
    has one answer. *)
Lemma newest_first_unique : forall l l',
  NoDup (map created_at l) ->
  Permutation l l' ->
  StronglySorted newer_first l -> StronglySorted newer_first l' ->
  l = l'.
Proof.
  induction l as [|a r IH]; intros l' Hnd Hperm Hs Hs'.
  - apply Permutation_nil in Hperm. now subst.
  - destruct l' as [|b r'].
    + apply Permutation_sym, Permutation_nil in Hperm. discriminate.
    + assert (Hab : a = b).
      { assert (Ha : In a (b :: r'))
          by (eapply Permutation_in; [exact Hperm | now left]).
        assert (Hb : In b (a :: r))
          by (eapply Permutation_in; [apply Permutation_sym; exact Hperm | now left]).
        apply (NoDup_map_injective _ _ created_at (a :: r)); [exact Hnd | now left | exact Hb |].
        apply StronglySorted_inv in Hs. destruct Hs as [_ Hfa].
        apply StronglySorted_inv in Hs'. destruct Hs' as [_ Hfb].
        rewrite Forall_forall in Hfa, Hfb. unfold newer_first in Hfa, Hfb.
        destruct Ha as [Ha|Ha]; [now subst|].
        destruct Hb as [Hb|Hb]; [now subst|].
        specialize (Hfa _ Hb). specialize (Hfb _ Ha). lia. }
      subst b. f_equal. apply IH.
      * simpl in Hnd. now apply NoDup_cons_iff in Hnd.
      * eapply Permutation_cons_inv. exact Hperm.
      * now apply StronglySorted_inv in Hs.
      * now apply StronglySorted_inv in Hs'.
Qed.

(** X15. Pages fit together.  When no two stored sales were created at
    the same time, the listing newest first has one answer, and on the same
    read endpoint page [q] of size [2 * n] is page [2 * q - 1] of size [n]
    followed by page [2 * q] of size [n]: between two consecutive pages no
    sale is skipped and none is repeated.  The pages are cut from any
    [listing] of the stored sales that is sorted newest first. *)
Theorem get_transactions_pages_concatenate : forall q n w listing,
  1 <= q -> 1 <= n ->
  fails_next (slave_pool w) = false ->
  NoDup (map created_at (sales_transaction (committed (slave_pool w)))) ->
  Permutation (sales_transaction (committed (slave_pool w))) listing ->
  StronglySorted newer_first listing ->
  exists r1 r2,
    fst (get_transactions (2 * q - 1) n w) = Ok r1 /\
    fst (get_transactions (2 * q) n w) = Ok r2 /\
    fst (get_transactions q (2 * n) w) = Ok (r1 ++ r2) /\
    r1 ++ r2 = firstn (Z.to_nat (2 * n)) (skipn (Z.to_nat ((q - 1) * (2 * n))) listing).
Proof.
  intros q n w listing Hq Hn Hf Hnd Hperm Hsorted.
  rewrite !get_transactions_run by (try assumption; nia).
  assert (Hl : order_by_created_at_desc (sales_transaction (committed (slave_pool w)))
               = listing).
  { apply newest_first_unique.
    - eapply Permutation_NoDup; [|exact Hnd]. apply Permutation_map, order_by_perm.
    - eapply Permutation_trans; [apply Permutation_sym, order_by_perm | exact Hperm].
    - apply order_by_sorted.
    - exact Hsorted. }
  rewrite Hl.
  eexists. eexists. split; [reflexivity|]. split; [reflexivity|]. cbn [fst].
  assert (Hcut : firstn (Z.to_nat (2 * n)) (skipn (Z.to_nat ((q - 1) * (2 * n))) listing)
                 = firstn (Z.to_nat n) (skipn (Z.to_nat ((2 * q - 1 - 1) * n)) listing)
                   ++ firstn (Z.to_nat n) (skipn (Z.to_nat ((2 * q - 1) * n)) listing)).
  { replace (Z.to_nat (2 * n)) with (Z.to_nat n + Z.to_nat n)%nat by lia.
    replace ((2 * q - 1 - 1) * n) with ((q - 1) * (2 * n)) by lia.
    replace (Z.to_nat ((2 * q - 1) * n))
      with (Z.to_nat n + Z.to_nat ((q - 1) * (2 * n)))%nat by nia.
    rewrite firstn_plus, skipn_skipn. reflexivity. }
  split; [f_equal; exact Hcut | symmetry; exact Hcut].
Qed.

Lemma get_transactions_pages_concatenate_witness :
  exists r1 r2,
    fst (get_transactions 1 4 archive_manager) = Ok r1 /\
    fst (get_transactions 2 4 archive_manager) = Ok r2 /\
    fst (get_transactions 1 8 archive_manager) = Ok (r1 ++ r2) /\
    map transaction_id (r1 ++ r2) = [15; 14; 13; 12; 11; 10; 9; 8].
Proof.
  destruct (get_transactions_pages_concatenate 1 4 archive_manager
              (order_by_created_at_desc fifteen_sales))
    as (r1 & r2 & H1 & H2 & H12 & Hcut).
  - lia.
  - lia.
  - reflexivity.
  - vm_compute. repeat constructor; simpl; intuition lia.
  - apply order_by_perm.
  - apply order_by_sorted.
  - exists r1, r2. split; [exact H1|]. split; [exact H2|]. split; [exact H12|].
    rewrite Hcut. reflexivity.
Defined.

(** ** What the statistics query computes *)

Lemma Qsum_app : forall a b, (Qsum (a ++ b) == Qsum a + Qsum b)%Q.
Proof.
  induction a as [|x a IH]; intros b; simpl.
  - ring.
  - rewrite IH. ring.
Qed.

Lemma Zsum_app : forall a b, Zsum (a ++ b) = Zsum a + Zsum b.
Proof.
  induction a as [|x a IH]; intros b; simpl.
  - reflexivity.
  - rewrite IH. ring.
Qed.

Lemma Qsum_repeat : forall x n, (Qsum (repeat x n) == x * inject_Z (Z.of_nat n))%Q.
Proof.
  intros x n. induction n as [|n IH].
  - simpl. ring.
  - rewrite Nat2Z.inj_succ. unfold Z.succ. rewrite inject_Z_plus.
    simpl repeat. simpl Qsum. rewrite IH. ring.
Qed.

Lemma join_block_fst : forall (B : Type) (f : SalesTransaction -> B) t (m : list SalesItem),
  map (fun p => f (fst p))
      (match m with
       | [] => [(t, None)]
       | _ :: _ => map (fun i => (t, Some i)) m
       end)
  = repeat (f t) (Nat.max 1 (List.length m)).
Proof.
  intros B f t m. destruct m as [|i m]; [reflexivity|].
  change (Nat.max 1 (List.length (i :: m))) with (S (List.length m)).
  rewrite map_map. simpl. f_equal.
  induction m as [|j m IH]; simpl; [reflexivity|]. now rewrite IH.
Qed.

Lemma left_join_cons : forall t ts its,
  left_join (t :: ts) its =
    match filter (of_transaction (transaction_id t)) its with
    | [] => [(t, None)]
    | _ :: _ => map (fun i => (t, Some i)) (filter (of_transaction (transaction_id t)) its)
    end ++ left_join ts its.
Proof.
  intros t ts its. unfold left_join. cbn [flat_map].
  destruct (filter (of_transaction (transaction_id t)) its); reflexivity.
Qed.

Lemma left_join_map_fst : forall (B : Type) (f : SalesTransaction -> B) db,
  map (fun p => f (fst p)) (left_join (sales_transaction db) (sales_item db))
  = flat_map (fun t => repeat (f t) (join_rows db t)) (sales_transaction db).
Proof.
  intros B f db. unfold join_rows, item_count.
  induction (sales_transaction db) as [|t ts IH].
  - reflexivity.
  - rewrite left_join_cons, map_app, IH. cbn [flat_map]. f_equal.
    pose proof (join_block_fst B f t
                  (filter (of_transaction (transaction_id t)) (sales_item db))) as Hb.
    destruct (filter (of_transaction (transaction_id t)) (sales_item db)); exact Hb.
Qed.

Lemma quantities_app : forall a b, quantities (a ++ b) = quantities a ++ quantities b.
Proof.
  intros a b. unfold quantities. apply flat_map_app.
Qed.

Lemma quantities_block : forall t (m : list SalesItem),
  quantities (map (fun i => (t, Some i)) m) = map quantity m.
Proof.
  intros t m. induction m as [|j m IH]; [reflexivity|].
  cbn [map]. change (quantities ((t, Some j) :: map (fun i => (t, Some i)) m))
    with (quantity j :: quantities (map (fun i => (t, Some i)) m)).
  now rewrite IH.
Qed.

Lemma left_join_quantities : forall db,
  quantities (left_join (sales_transaction db) (sales_item db))
  = flat_map (sale_quantities db) (sales_transaction db).
Proof.
  intros db. unfold sale_quantities.
  induction (sales_transaction db) as [|t ts IH].
  - reflexivity.
  - rewrite left_join_cons, quantities_app, IH. cbn [flat_map]. f_equal.
    destruct (filter (of_transaction (transaction_id t)) (sales_item db)) as [|i m] eqn:E;
      [reflexivity|].
    apply quantities_block.
Qed.

Lemma Qsum_flat_repeat : forall (v : SalesTransaction -> Q) (n : SalesTransaction -> nat) ts,
  (Qsum (flat_map (fun t => repeat (v t) (n t)) ts)
   == Qsum (map (fun t => v t * inject_Z (Z.of_nat (n t))) ts))%Q.
Proof.
  intros v n ts. induction ts as [|t ts IH]; simpl.
  - reflexivity.
  - rewrite Qsum_app, Qsum_repeat, IH. reflexivity.
Qed.

Lemma Zsum_flat_map : forall (A : Type) (f : A -> list Z) l,
  Zsum (flat_map f l) = Zsum (map (fun x => Zsum (f x)) l).
Proof.
  intros A f l. induction l as [|x l IH]; simpl.
  - reflexivity.
  - rewrite Zsum_app, IH. reflexivity.
Qed.

Lemma or_zero_sum_Z : forall l, or_zero_Z (coalesce (sql_sum_Z l) 0) = Zsum l.
Proof.
  destruct l; reflexivity.
Qed.

Lemma coalesce_sum_Q : forall l, coalesce (sql_sum_Q l) 0%Q = Some (Qsum l).
Proof.
  destruct l; reflexivity.
Qed.

Lemma get_sales_stats_run : forall w,
  fails_next (slave_pool w) = false ->
  get_sales_stats w =
    (let r := select_stats (committed (slave_pool w)) in
     Ok {| total_transactions := or_zero_Z (r_total_transactions r);
           total_revenue := or_zero_Q (r_total_revenue r);
           total_items_sold := or_zero_Z (r_total_items_sold r);
           average_transaction_value := or_zero_Q (r_average_transaction_value r) |},
     {| master_pool := master_pool w;
        slave_pool := {| committed := committed (slave_pool w);
                         faults := tl (faults (slave_pool w)) |} |}).
Proof.
  intros w Hf. unfold get_sales_stats, execute_read_query_one, bind.
  erewrite execute_read_query_ok; [|exact Hf|reflexivity]. reflexivity.
Qed.

Lemma nodup_length_same_elements : forall (l1 l2 : list Z),
  (forall x, In x l1 <-> In x l2) ->
  List.length (nodup Z.eq_dec l1) = List.length (nodup Z.eq_dec l2).
Proof.
  intros l1 l2 H. apply Permutation_length. apply NoDup_Permutation.
  - apply NoDup_nodup.
  - apply NoDup_nodup.
  - intros x. rewrite !nodup_In. apply H.
Qed.

Lemma select_stats_count : forall db,
  or_zero_Z (r_total_transactions (select_stats db))
  = count_distinct (map transaction_id (sales_transaction db)).
Proof.
  intros db. unfold select_stats. cbn [r_total_transactions or_zero_Z].
  rewrite (left_join_map_fst Z transaction_id db). unfold count_distinct. f_equal.
  apply nodup_length_same_elements. intros x. rewrite in_flat_map, in_map_iff.
  split.
  - intros (t & Hin & Hx). apply repeat_spec in Hx. exists t. auto.
  - intros (t & Hx & Hin). exists t. split; [exact Hin|]. subst x.
    unfold join_rows. destruct (item_count db t) as [|[|c]]; simpl; auto.
Qed.

(** The row that the query of [get_sales_stats] fetches. *)
Lemma select_stats_run : forall w,
  fails_next (slave_pool w) = false ->
  execute_read_query_one SelectStats w =
    (Ok (Some (StatsRow (select_stats (committed (slave_pool w))))),
     {| master_pool := master_pool w;
        slave_pool := {| committed := committed (slave_pool w);
                         faults := tl (faults (slave_pool w)) |} |}).
Proof.
  intros w Hf. unfold execute_read_query_one, bind.
  erewrite execute_read_query_ok; [|exact Hf|reflexivity]. reflexivity.
Qed.

(** The two sums of the statistics query over a store. *)
Lemma select_stats_sums : forall db,
  let r := select_stats db in
  (exists revenue,
     r_total_revenue r = Some revenue /\
     (revenue
      == Qsum (map (fun t => value (total_amount t) * inject_Z (Z.of_nat (join_rows db t)))
                   (sales_transaction db)))%Q) /\
  or_zero_Z (r_total_items_sold r)
    = Zsum (map (fun t => Zsum (sale_quantities db t)) (sales_transaction db)).
Proof.
  intros db r. subst r. unfold select_stats.
  cbn [r_total_revenue r_total_items_sold].
  rewrite coalesce_sum_Q, or_zero_sum_Z.
  rewrite (left_join_map_fst Q (fun t => value (total_amount t)) db).
  split.
  - eexists. split; [reflexivity|]. apply Qsum_flat_repeat.
  - rewrite left_join_quantities. apply Zsum_flat_map.
Qed.

(** X16. What the query of [get_sales_stats] computes.  When the read
    endpoint executes the query, the [total_transactions] the method
    returns is the number of distinct identities of stored sales and its
    [total_items_sold] is the sum of the quantities of the items of stored
    sales; the [total_revenue] column of the row that the query fetches,
    the NUMERIC sum the method then hands to [float()], is the sum over the
    stored sales of [total_amount] times the number of rows the sale has in
    the join (the number of its items, and one when it has none). *)
Theorem get_sales_stats_sums_over_join : forall w,
  fails_next (slave_pool w) = false ->
  let db := committed (slave_pool w) in
  exists s w' r revenue,
    get_sales_stats w = (Ok s, w') /\
    execute_read_query_one SelectStats w = (Ok (Some (StatsRow r)), w') /\
    total_transactions s = count_distinct (map transaction_id (sales_transaction db)) /\
    total_items_sold s
      = Zsum (map (fun t => Zsum (sale_quantities db t)) (sales_transaction db)) /\
    r_total_revenue r = Some revenue /\
    (revenue
     == Qsum (map (fun t => value (total_amount t) * inject_Z (Z.of_nat (join_rows db t)))
                  (sales_transaction db)))%Q.
Proof.
  intros w Hf db. rewrite (get_sales_stats_run _ Hf), (select_stats_run _ Hf). cbv zeta.
  destruct (select_stats_sums db) as ((revenue & Hcol & Hrev) & Hitems).
  eexists. eexists. eexists. exists revenue.
  split; [reflexivity|]. split; [reflexivity|].
  cbn [total_transactions total_items_sold].
  split; [apply select_stats_count|]. split; [exact Hitems|].
  split; [exact Hcol | exact Hrev].
Qed.

Lemma get_sales_stats_sums_over_join_witness :
  exists s w' r revenue,
    get_sales_stats reporting_manager = (Ok s, w') /\
    execute_read_query_one SelectStats reporting_manager = (Ok (Some (StatsRow r)), w') /\
    total_transactions s = 2 /\
    total_items_sold s = 3 /\
    r_total_revenue r = Some revenue /\
    (revenue == 30 * 2 + 10 * 1)%Q.
Proof.
  destruct (get_sales_stats_sums_over_join reporting_manager eq_refl)
    as (s & w' & r & revenue & Hrun & Hrow & Hn & Hitems & Hcol & Hrev).
  exists s, w', r, revenue. split; [exact Hrun|]. split; [exact Hrow|].
  split; [|split; [|split]].
  - rewrite Hn. reflexivity.
  - rewrite Hitems. reflexivity.
  - exact Hcol.
  - rewrite Hrev. vm_compute. reflexivity.
Defined.

Lemma Qsum_single_rows : forall db (v : SalesTransaction -> Q) ts,
  Forall (fun t => (item_count db t <= 1)%nat) ts ->
  (Qsum (map (fun t => v t * inject_Z (Z.of_nat (join_rows db t))) ts) == Qsum (map v ts))%Q.
Proof.
  intros db v ts H. induction H as [|t ts Ht _ IHq].
  - reflexivity.
  - assert (Hone : join_rows db t = 1%nat) by (unfold join_rows; lia).
    simpl map. simpl Qsum. rewrite IHq, Hone. simpl. ring.
Qed.

(** X17. When the identities of the stored sales are distinct and no
    stored sale has more than one item, the join repeats no sale and the
    statistics are the intended ones: the [total_transactions] the method
    returns is the number of stored sales, and the [total_revenue] column
    of the row that the query fetches, the NUMERIC sum the method then
    hands to [float()], is the sum of their [total_amount]. *)
Theorem get_sales_stats_without_fan_out : forall w,
  fails_next (slave_pool w) = false ->
  let db := committed (slave_pool w) in
  NoDup (map transaction_id (sales_transaction db)) ->
  Forall (fun t => (item_count db t <= 1)%nat) (sales_transaction db) ->
  exists s w' r revenue,
    get_sales_stats w = (Ok s, w') /\
    execute_read_query_one SelectStats w = (Ok (Some (StatsRow r)), w') /\
    total_transactions s = Z.of_nat (List.length (sales_transaction db)) /\
    r_total_revenue r = Some revenue /\
    (revenue == Qsum (map (fun t => value (total_amount t)) (sales_transaction db)))%Q.
Proof.
  intros w Hf db Hnd Hone.
  rewrite (get_sales_stats_run _ Hf), (select_stats_run _ Hf). cbv zeta.
  destruct (select_stats_sums db) as ((revenue & Hcol & Hrev) & _).
  pose proof (Qsum_single_rows db (fun t => value (total_amount t)) _ Hone) as Hq.
  eexists. eexists. eexists. exists revenue.
  split; [reflexivity|]. split; [reflexivity|].
  cbn [total_transactions].
  split; [|split].
  - fold db. rewrite select_stats_count. unfold count_distinct.
    rewrite nodup_fixed_point by exact Hnd. now rewrite length_map.
  - exact Hcol.
  - rewrite Hrev. exact Hq.
Qed.

Lemma get_sales_stats_without_fan_out_witness :
  exists s w' r revenue,
    get_sales_stats archive_manager = (Ok s, w') /\
    execute_read_query_one SelectStats archive_manager = (Ok (Some (StatsRow r)), w') /\
    total_transactions s = 15 /\
    r_total_revenue r = Some revenue /\
    (revenue == 150)%Q.
Proof.
  destruct (get_sales_stats_without_fan_out archive_manager eq_refl)
    as (s & w' & r & revenue & Hrun & Hrow & Hn & Hcol & Hrev).
  - simpl. repeat constructor; simpl; intuition lia.
  - repeat constructor.
  - exists s, w', r, revenue. split; [exact Hrun|]. split; [exact Hrow|].
    split; [exact Hn|]. split; [exact Hcol|]. rewrite Hrev. vm_compute. reflexivity.
Defined.

(** ** Items of a sale and best-selling products *)

Section OrderBy.

Context {A : Type}.
Variable key : A -> Z.

Let ascending (a b : A) : Prop := key a <= key b.

Lemma insert_asc_perm : forall x l, Permutation (x :: l) (insert_asc key x l).
Proof.
  intros x l. induction l as [|h r IH]; simpl.
  - apply Permutation_refl.
  - destruct (key h <? key x).
    + eapply Permutation_trans; [apply perm_swap|]. now apply perm_skip.
    + apply Permutation_refl.
Qed.

Lemma order_by_key_perm : forall l, Permutation l (order_by key l).
Proof.
  induction l as [|x l IH]; simpl.
  - apply perm_nil.
  - eapply Permutation_trans; [|apply insert_asc_perm]. now apply perm_skip.
Qed.

Lemma insert_asc_sorted : forall x l,
  StronglySorted ascending l -> StronglySorted ascending (insert_asc key x l).
Proof.
  intros x l H. induction H as [|h r Hr IH Hh]; simpl.
  - constructor; constructor.
  - destruct (key h <? key x) eqn:E.
    + apply Z.ltb_lt in E. constructor; [exact IH|].
      eapply Permutation_Forall; [apply insert_asc_perm|].
      constructor; [unfold ascending; lia | exact Hh].
    + apply Z.ltb_ge in E. constructor.
      * constructor; assumption.
      * constructor; [exact E|].
        eapply Forall_impl; [|exact Hh]. unfold ascending. intros; lia.
Qed.

Lemma order_by_key_sorted : forall l, StronglySorted ascending (order_by key l).
Proof.
  induction l as [|x l IH]; simpl.
  - constructor.
  - now apply insert_asc_sorted.
Qed.

End OrderBy.

Lemma execute_report_query_ok : forall q w,
  fails_next (slave_pool w) = false ->
  execute_report_query q w =
    (run_report q (committed (slave_pool w)),
     {| master_pool := master_pool w;
        slave_pool := {| committed := committed (slave_pool w);
                         faults := tl (faults (slave_pool w)) |} |}).
Proof.
  intros q w Hf. unfold execute_report_query, fails_next in *.
  destruct (faults (slave_pool w)) as [|[|] fs]; try discriminate; reflexivity.
Qed.

Lemma items_of_rows_map : forall l, items_of_rows (map ItemRow l) = Ok l.
Proof.
  induction l as [|i l IH]; simpl.
  - reflexivity.
  - rewrite IH. reflexivity.
Qed.

(** X18. When the read endpoint executes the query,
    [get_items_by_transaction] returns exactly the stored items of the
    given sale — each of them once, and no item of another sale — in
    ascending order of [item_id]; for an identity without items it returns
    the empty list. *)
Theorem get_items_by_transaction_sorted : forall id w,
  fails_next (slave_pool w) = false ->
  exists items w',
    get_items_by_transaction id w = (Ok items, w') /\
    Permutation items (filter (of_transaction id) (sales_item (committed (slave_pool w)))) /\
    Forall (fun i => item_transaction_id i = id) items /\
    StronglySorted (fun a b => item_id a <= item_id b) items.
Proof.
  intros id w Hf.
  exists (order_by item_id (filter (of_transaction id) (sales_item (committed (slave_pool w))))).
  eexists. split; [|split; [|split]].
  - unfold get_items_by_transaction, bind, lift.
    rewrite (execute_report_query_ok _ _ Hf). simpl.
    rewrite items_of_rows_map. reflexivity.
  - apply Permutation_sym, order_by_key_perm.
  - eapply Permutation_Forall; [apply order_by_key_perm|].
    apply Forall_forall. intros i Hin. apply filter_In in Hin.
    destruct Hin as [_ Hid]. unfold of_transaction in Hid. now apply Z.eqb_eq.
  - apply order_by_key_sorted.
Qed.

Lemma get_items_by_transaction_sorted_witness :
  exists items w',
    get_items_by_transaction 1 reporting_manager = (Ok items, w') /\
    map item_id items = [1; 2].
Proof.
  destruct (get_items_by_transaction_sorted 1 reporting_manager eq_refl)
    as (items & w' & Hrun & _).
  exists items, w'. split; [exact Hrun|].
  vm_compute in Hrun. inversion Hrun. reflexivity.
Defined.

Lemma product_group_name : forall items name,
  pr_product_name (product_group items name) = name.
Proof.
  reflexivity.
Qed.

(** X19. When the read endpoint executes the query, [get_top_products]
    with a non-negative [limit] returns the first [limit] rows (all of
    them when fewer products are stored) of a listing of the products in
    descending order of summed quantity: one row per product name that
    occurs in [sales_item], whose [total_quantity] is the sum of the
    quantities of the items of that name.  No name is returned twice, and
    no product left out has sold more than a returned one. *)
Theorem get_top_products_ranked : forall limit w,
  0 <= limit ->
  fails_next (slave_pool w) = false ->
  let items := sales_item (committed (slave_pool w)) in
  exists rows rest w',
    get_top_products limit w = (Ok (map ProductRow rows), w') /\
    Permutation (rows ++ rest) (map (product_group items) (product_names items)) /\
    StronglySorted (fun a b => pr_total_quantity b <= pr_total_quantity a) (rows ++ rest) /\
    List.length rows = Nat.min (Z.to_nat limit) (List.length (product_names items)) /\
    NoDup (map pr_product_name rows) /\
    Forall (fun p => In (pr_product_name p) (map product_name items) /\
                     pr_total_quantity p =
                       Zsum (map quantity (filter (named (pr_product_name p)) items))) rows.
Proof.
  intros limit w Hl Hf items.
  set (groups := map (product_group items) (product_names items)).
  set (sorted := order_by (fun p => - pr_total_quantity p) groups).
  assert (Hperm : Permutation groups sorted) by apply order_by_key_perm.
  exists (firstn (Z.to_nat limit) sorted), (skipn (Z.to_nat limit) sorted).
  eexists. rewrite firstn_skipn.
  assert (Hall : Forall (fun p => In (pr_product_name p) (map product_name items) /\
                          pr_total_quantity p =
                            Zsum (map quantity (filter (named (pr_product_name p)) items)))
                   sorted).
  { eapply Permutation_Forall; [exact Hperm|]. unfold groups.
    apply Forall_map. apply Forall_forall. intros name Hin.
    rewrite product_group_name. split; [|reflexivity].
    unfold product_names in Hin. now apply nodup_In in Hin. }
  assert (Hnames : NoDup (map pr_product_name sorted)).
  { eapply Permutation_NoDup; [apply Permutation_map; exact Hperm|].
    unfold groups. rewrite map_map.
    rewrite (map_ext _ (fun n => n)) by (intros; apply product_group_name).
    rewrite map_id. apply NoDup_nodup. }
  split; [|split; [|split; [|split; [|split]]]].
  - unfold get_top_products. rewrite (execute_report_query_ok _ _ Hf). simpl.
    replace (limit <? 0) with false by (symmetry; apply Z.ltb_ge; lia).
    reflexivity.
  - apply Permutation_sym. exact Hperm.
  - pose proof (order_by_key_sorted (fun p => - pr_total_quantity p) groups) as Hs.
    fold sorted in Hs. clear - Hs.
    induction Hs as [|a l Hl IH Ha]; constructor; [exact IH|].
    eapply Forall_impl; [|exact Ha]. intros b Hb. simpl in Hb. lia.
  - rewrite length_firstn. f_equal.
    rewrite <- (Permutation_length Hperm). unfold groups. apply length_map.
  - rewrite <- (firstn_skipn (Z.to_nat limit) sorted), map_app in Hnames.
    now apply NoDup_app_remove_r in Hnames.
  - rewrite <- (firstn_skipn (Z.to_nat limit) sorted) in Hall.
    apply Forall_app in Hall. apply Hall.
Qed.

Lemma get_top_products_ranked_witness :
  exists rows w',
    get_top_products 1 reporting_manager = (Ok (map ProductRow rows), w') /\
    map pr_product_name rows = ["Coffee"%string] /\
    map pr_total_quantity rows = [3].
Proof.
  destruct (get_top_products_ranked 1 reporting_manager)
    as (rows & rest & w' & Hrun & _); [lia | reflexivity |].
  exists rows, w'. split; [exact Hrun|].
  vm_compute in Hrun. inversion Hrun as [[Hrows Hw]].
  destruct rows as [|p [|p' rows]]; try discriminate.
  simpl in Hrows. inversion Hrows. split; reflexivity.
Defined.

(** ** The sale and its items agree *)

Lemma persisted_rows_sums : forall tid L rows,
  Forall (within_scale 2) L ->
  mass 2 L < 10 ^ prec ->
  Forall2 (persisted_as tid) L rows ->
  (Qsum (map (fun r => value (total_price r)) rows)
   == inject_Z (Zsum (map (line_units 2) L)) * Qpower (10 # 1) (- 2))%Q /\
  (Qsum (map (fun r => value (discount r)) rows)
   == inject_Z (Zsum (map (fun it => units 2 (get_discount it)) L)) * Qpower (10 # 1) (- 2))%Q.
Proof.
  intros tid L rows Hscale Hmass Hall. revert Hscale Hmass.
  assert (Hs : 0 <= 2 <= 1000026) by lia.
  induction Hall as [|item r L rows Hp _ IH]; intros Hscale Hmass.
  - split; simpl; ring.
  - apply Forall_cons_iff in Hscale. destruct Hscale as [Hitem Hscale].
    rewrite mass_cons in Hmass. pose proof (mass_nonneg 2 Hs L) as Hm.
    pose proof (Z.abs_nonneg (units 2 (get_discount item))) as Hd0.
    assert (Hw0 : 0 <= Z.abs (units 2 (d_unit_price item)) * Z.abs (d_quantity item)).
    { pose proof (Z.abs_nonneg (units 2 (d_unit_price item))).
      pose proof (Z.abs_nonneg (d_quantity item)). nia. }
    destruct (IH Hscale ltac:(lia)) as [IHt IHd].
    destruct (item_total_exact 2 Hs item Hitem ltac:(lia)) as (t & Ht & Het & Hut).
    destruct Hp as (_ & _ & _ & _ & _ & _ & Hdisc & Htotal).
    rewrite Ht in Htotal. cbn [rbind] in Htotal. inversion Htotal as [Hrt]. clear Htotal.
    assert (Hrd : discount r = numeric_scale2 (get_discount item)).
    { unfold get_discount. destruct (d_discount item); [|discriminate Hdisc].
      simpl in Hdisc. congruence. }
    simpl map. simpl Qsum. simpl Zsum. rewrite !inject_Z_plus. split.
    + rewrite IHt, <- Hrt, value_numeric_scale2, (value_units 2 t) by lia.
      rewrite Hut. change (- (2)) with (-2). ring.
    + rewrite IHd, Hrd, value_numeric_scale2, (value_units 2 (get_discount item))
        by (apply Hitem).
      change (- (2)) with (-2). ring.
Qed.

(** X20. The sale agrees with its items.  When the prices and discounts
    of the items have at most two decimals and their absolute line amounts
    and discounts add up to fewer than [10^28] cents, a call of
    [create_transaction] that returns a sale has stored item rows whose
    [total_price] add up exactly to the [total_amount] of the sale and
    whose [discount] add up exactly to its [total_discount]. *)
Theorem create_transaction_totals_match_rows : forall data L w sale w',
  Forall (within_scale 2) L ->
  mass 2 L < 10 ^ 28 ->
  create_transaction data L w = (Ok sale, w') ->
  exists rows,
    sales_item (committed (master_pool w')) = sales_item (committed (master_pool w)) ++ rows /\
    (value (total_amount sale) == Qsum (map (fun r => value (total_price r)) rows))%Q /\
    (value (total_discount sale) == Qsum (map (fun r => value (discount r)) rows))%Q.
Proof.
  intros data L w sale w' Hscale Hmass Hcreate.
  change (10 ^ 28) with (10 ^ prec) in Hmass.
  assert (Hs : 0 <= 2 <= 1000026) by lia.
  apply create_transaction_inv in Hcreate.
  destruct Hcreate as (ta & tdisc & Htot & _ & Hsale & Hitems).
  apply create_items_inv in Hitems.
  destruct Hitems as (rows & Hrows & Hall & _).
  cbn [master_pool committed store_with_sale sales_item] in Hrows.
  assert (Hz : units 2 zero = 0) by reflexivity.
  destruct (calculate_totals_exact 2 Hs L zero zero Hscale)
    as (ta' & tdisc' & Htot' & Hta & Htd & Heta & Hetd);
    try (rewrite Hz; simpl Z.abs; lia); try (simpl; lia).
  rewrite Htot in Htot'. inversion Htot'; subst ta' tdisc'.
  rewrite Hz in Hta, Htd. rewrite Z.add_0_l in Hta, Htd.
  destruct (persisted_rows_sums _ L rows Hscale Hmass Hall) as [Hsum_t Hsum_d].
  exists rows. split; [exact Hrows|]. rewrite Hsale.
  unfold inserted_sale. cbn [total_amount total_discount].
  split.
  - rewrite value_numeric_scale2, (value_units 2 ta) by lia.
    rewrite Hta, Hsum_t. reflexivity.
  - rewrite value_numeric_scale2, (value_units 2 tdisc) by lia.
    rewrite Htd, Hsum_d. reflexivity.
Qed.

Lemma create_transaction_totals_match_rows_witness :
  exists sale w' rows,
    create_transaction cash_sale [coffee; muffin] (fresh_manager []) = (Ok sale, w') /\
    sales_item (committed (master_pool w')) = rows /\
    (value (total_amount sale) == Qsum (map (fun r => value (total_price r)) rows))%Q /\
    (value (total_amount sale) == 25)%Q.
Proof.
  edestruct (create_transaction_totals_match_rows cash_sale [coffee; muffin]
               (fresh_manager [])) as (rows & Hrows & Ha & _).
  - repeat constructor; simpl; lia.
  - vm_compute. reflexivity.
  - reflexivity.
  - eexists. eexists. exists rows. split; [reflexivity|].
    split; [exact Hrows|]. split; [exact Ha|]. vm_compute. reflexivity.
Defined.

(** ** Deleting twice *)

Lemma existsb_filter_out : forall id l,
  existsb (has_id id) (filter (fun t => negb (has_id id t)) l) = false.
Proof.
  intros id l. induction l as [|t l IH]; simpl.
  - reflexivity.
  - destruct (has_id id t) eqn:Ht; simpl; [exact IH|]. rewrite Ht. exact IH.
Qed.

Lemma filter_twice : forall (A : Type) (p : A -> bool) (l : list A),
  filter p (filter p l) = filter p l.
Proof.
  intros A p l. induction l as [|x l IH]; simpl.
  - reflexivity.
  - destruct (p x) eqn:Hx; simpl; [rewrite Hx, IH|]; auto.
Qed.

(** X21. [delete_transaction] is idempotent, and says [True] both
    times: when the write endpoint executes both statements, a second
    deletion of the same identity returns [True] like the first and leaves
    the store that the first left. *)
Theorem delete_transaction_idempotent : forall id w,
  no_faults 2 (faults (master_pool w)) ->
  exists w1 w2,
    delete_transaction id w = (Ok true, w1) /\
    delete_transaction id w1 = (Ok true, w2) /\
    committed (master_pool w2) = committed (master_pool w1).
Proof.
  intros id w Hnf.
  apply no_faults_S in Hnf. destruct Hnf as [Hf1 Hnf].
  apply no_faults_S in Hnf. destruct Hnf as [Hf2 _].
  rewrite (delete_transaction_run _ _ Hf1).
  eexists. eexists. split; [reflexivity|].
  rewrite delete_transaction_run by exact Hf2.
  split; [reflexivity|].
  cbn [master_pool committed sales_transaction sales_item transaction_id_seq
       item_id_seq current_timestamp].
  rewrite existsb_filter_out, filter_twice. reflexivity.
Qed.

Lemma delete_transaction_idempotent_witness :
  exists w1 w2,
    delete_transaction 1 reporting_manager = (Ok true, w1) /\
    delete_transaction 1 w1 = (Ok true, w2) /\
    committed (master_pool w2) = committed (master_pool w1) /\
    map transaction_id (sales_transaction (committed (master_pool w1))) = [2] /\
    map item_id (sales_item (committed (master_pool w1))) = [3].
Proof.
  destruct (delete_transaction_idempotent 1 reporting_manager)
    as (w1 & w2 & H1 & H2 & Hsame); [repeat constructor|].
  exists w1, w2. split; [exact H1|]. split; [exact H2|]. split; [exact Hsame|].
  vm_compute in H1. inversion H1. split; reflexivity.
Defined.
